(** * amazon-cloudwatch-agent-test: dimension resolution, metric runners and
      log validation

    A shallow embedding of
    - [test/metric/dimension/provider.go]   (module [dimension]),
    - the Swap and Mem runners of package [metric_value_benchmark],
    - [internal/awsservice/cloudwatchlogs.go] (module [awsservice]),
    followed by the properties established about them.

    Conventions.  A Go [*string] is an [option string] ([None] is [nil]);
    dereferencing [nil] panics.  A function that logs, calls a remote
    service or may panic runs in the monad [M]: it yields an [outcome]
    together with the list of [event]s it performed, in program order. *)

From Stdlib Require Import List String ZArith Bool Lia Permutation.
Import ListNotations.
Local Open Scope string_scope.
Local Open Scope list_scope.

(* ================================================================== *)
(** * Go runtime                                                        *)
(* ================================================================== *)

Module go.

(** How a call ends.  [Pending] only arises for code that talks to a
    scripted backend: the code is about to issue one more remote call and
    the script holds no answer for it. *)
Inductive outcome (A : Type) : Type :=
| Returned (a : A)
| Panicked
| Pending.
Arguments Returned {A} a.
Arguments Panicked {A}.
Arguments Pending {A}.

(** [float64], as far as comparisons need it: not-a-number, the two
    infinities, and the finite values [m * 2^e] (both zeros are [m = 0]). *)
Inductive float64 : Type :=
| NaN
| Inf (negative : bool)
| Finite (m e : Z).

(** [0 <= v] and [v < 0] in IEEE 754: every comparison with NaN is false. *)
Definition geZero (v : float64) : bool :=
  match v with
  | NaN => false
  | Inf negative => negb negative
  | Finite m _ => (0 <=? m)%Z
  end.

Definition ltZero (v : float64) : bool :=
  match v with
  | NaN => false
  | Inf negative => negative
  | Finite m _ => (m <? 0)%Z
  end.

(** [int] is a 64-bit two's complement integer on the platforms the tests
    build for; arithmetic wraps. *)
Definition wrap64 (z : Z) : Z := ((z + 2 ^ 63) mod 2 ^ 64 - 2 ^ 63)%Z.

Definition int_add (a b : Z) : Z := wrap64 (a + b).

(** [time.Time], by its [UnixNano()] reading, and [time.Duration] in
    nanoseconds. *)
Record Time : Type := { UnixNano : Z }.

Definition Duration : Type := Z.
Definition Minute : Duration := 60000000000%Z.

(** A Go [error] as the code inspects it: [errors.As(err, &rnf)] succeeds
    exactly on a [types.ResourceNotFoundException]. *)
Inductive error : Type :=
| ResourceNotFoundException (message : string)
| OtherError (message : string).

Definition isResourceNotFound (err : error) : bool :=
  match err with
  | ResourceNotFoundException _ => true
  | OtherError _ => false
  end.

End go.
Import go.

(* ================================================================== *)
(** * SDK data types                                                    *)
(* ================================================================== *)

(** [github.com/aws/aws-sdk-go-v2/service/cloudwatch/types] *)
Module types.

Record Dimension : Type := { Name : option string; Value : option string }.

(** The composite literal [types.Dimension{}]. *)
Definition zero : Dimension := {| Name := None; Value := None |}.

(** [dim != types.Dimension{}]: struct comparison is field-wise, and a
    pointer field equals [nil] exactly when it is [None] here. *)
Definition isZero (dim : Dimension) : bool :=
  match Name dim, Value dim with
  | None, None => true
  | _, _ => false
  end.

End types.

(** [github.com/aws/aws-sdk-go-v2/service/cloudwatchlogs] and its [types] *)
Module cloudwatchlogs.

Record OutputLogEvent : Type := { Message : option string }.

Record GetLogEventsInput : Type := {
  LogGroupName : option string;
  LogStreamName : option string;
  StartFromHead : option bool;
  StartTime : option Z;
  EndTime : option Z;
  NextToken : option string
}.

Record GetLogEventsOutput : Type := {
  Events : list OutputLogEvent;
  NextForwardToken : option string
}.

Record LogGroup : Type := { GroupName : option string }.

Record DescribeLogGroupsInput : Type := { LogGroupNamePrefix : option string }.

Record DescribeLogGroupsOutput : Type := { LogGroups : list LogGroup }.

(** What one remote call hands back: the output, or an error. *)
Definition reply (A : Type) : Type := (A + error)%type.

End cloudwatchlogs.

(** Package [metric], as far as the runners use it. *)
Module metric.

(** Modelled from the spec: the declaration of the statistic constants is in
    a file that is not at hand; the spec lists statistic in
    {average, sum, min, max, sample-count}. *)
Inductive Statistic : Type := AVERAGE | SUM | MINIMUM | MAXIMUM | SAMPLE_COUNT.

(** Modelled from the spec: [metric.Bounds] is declared in a file that is not
    at hand; the spec gives an optional inclusive (lower, upper) range. *)
Record Bounds : Type := { Lower : float64; Upper : float64 }.

End metric.

(** Package [status]. *)
Module status.

(** Modelled from the spec: the status constants are declared in a file that
    is not at hand; the spec gives the closed enumeration
    {successful, failed, skipped}. *)
Inductive TestStatus : Type := SUCCESSFUL | FAILED | SKIPPED.

(** Modelled from the spec: a test result carries a name and a status; the
    runners set exactly these two fields. *)
Record TestResult : Type := { Name : string; Status : TestStatus }.

(** [status.TestGroupResult], by the two fields the runners fill in. *)
Module TestGroupResult.

Record t : Type := { Name : string; TestResults : list TestResult }.

End TestGroupResult.

End status.

(* ================================================================== *)
(** * Observable events and the monad [M]                               *)
(* ================================================================== *)

Inductive logarg : Type :=
| ArgString (s : string)
| ArgInt (n : Z)
| ArgTime (t : Time)
| ArgFloats (values : list float64)
| ArgError (err : error).

Inductive event : Type :=
| EvLog (format : string) (args : list logarg)
| EvFetch (namespace metricName : string) (dims : list types.Dimension)
    (stat : metric.Statistic)
| EvGetLogEvents (params : cloudwatchlogs.GetLogEventsInput)
    (resp : cloudwatchlogs.reply cloudwatchlogs.GetLogEventsOutput)
| EvDescribeLogGroups (input : cloudwatchlogs.DescribeLogGroupsInput)
| EvSleep (d : Duration)
| EvValidator (logs : list string).

Definition M (A : Type) : Type := (outcome A * list event)%type.

Definition ret {A} (a : A) : M A := (Returned a, []).

Definition bind {A B} (c : M A) (k : A -> M B) : M B :=
  match c with
  | (Returned a, tr) => let (o, tr') := k a in (o, tr ++ tr')
  | (Panicked, tr) => (Panicked, tr)
  | (Pending, tr) => (Pending, tr)
  end.

Definition emit (e : event) : M unit := (Returned tt, [e]).

Definition panic {A} : M A := (Panicked, []).

(** [*p] *)
Definition deref {A} (p : option A) : M A :=
  match p with
  | Some a => ret a
  | None => panic
  end.

Declare Scope go_scope.
Delimit Scope go_scope with go.
Notation "x <- c ;; k" := (bind c (fun x => k))
  (at level 61, c at next level, right associativity) : go_scope.
Notation "c ;; k" := (bind c (fun _ => k))
  (at level 61, right associativity) : go_scope.
Local Open Scope go_scope.

(** [log.Printf(format, args...)] *)
Definition log_Printf (format : string) (args : list logarg) : M unit :=
  emit (EvLog format args).

(** Number of remote calls of each kind in a trace. *)
Definition isFetch (e : event) : bool :=
  match e with EvFetch _ _ _ _ => true | _ => false end.

Definition isGetLogEvents (e : event) : bool :=
  match e with EvGetLogEvents _ _ => true | _ => false end.

Definition fetchCalls (tr : list event) : nat := List.length (filter isFetch tr).

Definition getLogEventsCalls (tr : list event) : nat :=
  List.length (filter isGetLogEvents tr).

Definition sleeps (tr : list event) : list Duration :=
  flat_map (fun e => match e with EvSleep d => [d] | _ => [] end) tr.

Definition validatorCalls (tr : list event) : list (list string) :=
  flat_map (fun e => match e with EvValidator l => [l] | _ => [] end) tr.

(* ================================================================== *)
(** * Package [dimension] (provider.go)                                 *)
(* ================================================================== *)

Module dimension.

Record ExpectedDimensionValue : Type := { Value : option string }.

Definition IsKnown (d : ExpectedDimensionValue) : bool :=
  match Value d with
  | None => true
  | Some _ => false
  end.

Definition UnknownDimensionValue : ExpectedDimensionValue := {| Value := None |}.

(** [Instruction]; its second field is [Value] in the source. *)
Record Instruction : Type := { Key : string; Expected : ExpectedDimensionValue }.

(** The interface [IProvider]: a provider is the pair of its methods, each
    closed over the environment metadata the provider was built with. *)
Record IProvider : Type := {
  IsApplicable : bool;
  GetDimension : Instruction -> types.Dimension
}.

Record Factory : Type := { providers : list IProvider }.

(** [GetDimensionFactory], over the five providers it builds from [env]
    (their implementations live in other files), in the order it lists
    them. *)
Definition GetDimensionFactory (allDimensionProviders : list IProvider) : Factory :=
  {| providers := filter IsApplicable allDimensionProviders |}.

Fixpoint executeInstruction_range (ps : list IProvider) (instruction : Instruction)
  : types.Dimension :=
  match ps with
  | [] => types.zero
  | provider :: ps' =>
      let dim := GetDimension provider instruction in
      if negb (types.isZero dim) then dim
      else executeInstruction_range ps' instruction
  end.

Definition executeInstruction (f : Factory) (instruction : Instruction)
  : types.Dimension :=
  executeInstruction_range (providers f) instruction.

(** The body of the [for ... range instructions] loop of [GetDimensions],
    with the two slices it grows. *)
Fixpoint GetDimensions_range (f : Factory) (instructions : list Instruction)
  (resultDimensions : list types.Dimension)
  (unfulfilledInstructions : list Instruction)
  : M (list types.Dimension * list Instruction) :=
  match instructions with
  | [] => ret (resultDimensions, unfulfilledInstructions)
  | instruction :: rest =>
      let dim := executeInstruction f instruction in
      if negb (types.isZero dim) then
        let resultDimensions := resultDimensions ++ [dim] in
        name <- deref (types.Name dim) ;;
        value <- deref (types.Value dim) ;;
        log_Printf "Result dim is : %s, %s" [ArgString name; ArgString value] ;;
        GetDimensions_range f rest resultDimensions unfulfilledInstructions
      else
        let unfulfilledInstructions := unfulfilledInstructions ++ [instruction] in
        name <- deref (types.Name dim) ;;
        value <- deref (types.Value dim) ;;
        log_Printf "unfulfilled dim is : %s, %s" [ArgString name; ArgString value] ;;
        GetDimensions_range f rest resultDimensions unfulfilledInstructions
  end.

Definition GetDimensions (f : Factory) (instructions : list Instruction)
  : M (list types.Dimension * list Instruction) :=
  GetDimensions_range f instructions [] [].

(** A dimension with both pointers set. *)
Definition full (dim : types.Dimension) : Prop :=
  exists n v, dim = {| types.Name := Some n; types.Value := Some v |}.

(** The log lines of a run of [GetDimensions] in which everything resolves. *)
Definition resolvedLog (f : Factory) (instructions : list Instruction) : list event :=
  flat_map (fun i =>
    match types.Name (executeInstruction f i), types.Value (executeInstruction f i) with
    | Some n, Some v => [EvLog "Result dim is : %s, %s" [ArgString n; ArgString v]]
    | _, _ => []
    end) instructions.

End dimension.

(* ================================================================== *)
(** * Package [metric_value_benchmark] (Swap and Mem runners)           *)
(* ================================================================== *)

Module metric_value_benchmark.
Import status.

(** [test_runner.BaseTestRunner], by the one field the runners read. *)
Record BaseTestRunner : Type := { DimensionFactory : dimension.Factory }.

Record SwapTestRunner : Type := { SwapBase : BaseTestRunner }.

Record MemTestRunner : Type := { MemBase : BaseTestRunner }.



Definition SwapTestRunner_GetMeasuredMetrics : list (string * option metric.Bounds) :=
  [ ("swap_free", None); ("swap_used", None); ("swap_used_percent", None) ].

Definition MemTestRunner_GetMeasuredMetrics : list (string * option metric.Bounds) :=
  [ ("mem_active", None); ("mem_available", None); ("mem_available_percent", None);
    ("mem_buffered", None); ("mem_cached", None); ("mem_free", None);
    ("mem_inactive", None); ("mem_total", None); ("mem_used", None);
    ("mem_used_percent", None) ].

(** Modelled from the spec: [isAllValuesGreaterThanOrEqualToZero] is defined
    in a file of the package that is not at hand.  The spec, section 4.6,
    steps 4 and 5: without Bounds every value must satisfy value >= 0, and
    the sequence must be non-empty to qualify as successful. *)
Definition isAllValuesGreaterThanOrEqualToZero (metricName : string)
  (values : list float64) : bool :=
  match values with
  | [] => false
  | _ :: _ => forallb geZero values
  end.

Section Runners.

(** The package-level [namespace], defined in another file of the package. *)
Variable namespace : string.

(** What the remote metrics service answers to a query: the result pair of
    [metric.MetricValueFetcher.Fetch], whose code is not at hand. *)
Variable remote : string -> string -> list types.Dimension -> metric.Statistic ->
  list float64 * option error.

(** [fetcher.Fetch(namespace, metricName, dims, stat)]: one remote query. *)
Definition Fetch (ns metricName : string) (dims : list types.Dimension)
  (stat : metric.Statistic) : M (list float64 * option error) :=
  emit (EvFetch ns metricName dims stat) ;;
  ret (remote ns metricName dims stat).

Definition instanceIdInstruction : dimension.Instruction :=
  {| dimension.Key := "InstanceId";
     dimension.Expected := dimension.UnknownDimensionValue |}.

Definition validateSwapMetric (t : SwapTestRunner) (metricName : string)
  : M TestResult :=
  let testResult := {| Name := metricName; Status := FAILED |} in
  r <- dimension.GetDimensions (DimensionFactory (SwapBase t)) [instanceIdInstruction] ;;
  let (dims, failed) := r in
  if (0 <? List.length failed)%nat then ret testResult
  else
    f <- Fetch namespace metricName dims metric.AVERAGE ;;
    let (values, err) := f in
    log_Printf "metric values are %v" [ArgFloats values] ;;
    match err with
    | Some _ => ret testResult
    | None =>
        if negb (isAllValuesGreaterThanOrEqualToZero metricName values)
        then ret testResult
        else ret {| Name := metricName; Status := SUCCESSFUL |}
    end.

Definition validateMemMetric (m : MemTestRunner) (metricName : string)
  : M TestResult :=
  let testResult := {| Name := metricName; Status := FAILED |} in
  r <- dimension.GetDimensions (DimensionFactory (MemBase m)) [instanceIdInstruction] ;;
  let (dims, failed) := r in
  if (0 <? List.length failed)%nat then ret testResult
  else
    f <- Fetch namespace metricName dims metric.AVERAGE ;;
    let (values, err) := f in
    match err with
    | Some _ => ret testResult
    | None =>
        if negb (isAllValuesGreaterThanOrEqualToZero metricName values)
        then ret testResult
        else ret {| Name := metricName; Status := SUCCESSFUL |}
    end.

End Runners.

Definition SwapTestRunner_GetAgentConfigFileName : string := "swap_config.json".

Definition MemTestRunner_GetAgentConfigFileName : string := "mem_config.json".

Section Groups.

Variable namespace : string.
Variable remote : string -> string -> list types.Dimension -> metric.Statistic ->
  list float64 * option error.




End Groups.

(** The status both runners settle on for [metricName] once the dimensions
    [dims] are resolved: what the remote answers decides. *)
Definition verdictOf (namespace : string)
  (remote : string -> string -> list types.Dimension -> metric.Statistic ->
            list float64 * option error)
  (dims : list types.Dimension) (metricName : string) : TestResult :=
  {| Name := metricName;
     Status := match remote namespace metricName dims metric.AVERAGE with
               | (_, Some _) => FAILED
               | (values, None) =>
                   if isAllValuesGreaterThanOrEqualToZero metricName values
                   then SUCCESSFUL else FAILED
               end |}.

(** The fetches a trace holds, with their arguments. *)
Definition fetches (tr : list event) : list event := filter isFetch tr.

End metric_value_benchmark.

(** [cloudwatchlogs.DeleteLogStreamInput] and [cloudwatchlogs.DeleteLogGroupInput] *)
Module DeleteLogStreamInput.

Record t : Type := { LogGroupName : option string; LogStreamName : option string }.

End DeleteLogStreamInput.

Module DeleteLogGroupInput.

Record t : Type := { LogGroupName : option string }.

End DeleteLogGroupInput.

(* ================================================================== *)
(** * Package [awsservice] (cloudwatchlogs.go)                          *)
(* ================================================================== *)

Module awsservice.
Import cloudwatchlogs.

Definition allowedRetries : Z := 5.

(** [aws.Config], [context.Context] and [*cloudwatchlogs.Client] are opaque
    handles to this code. *)
Record Config : Type := { Region : string }.

Inductive Context : Type := Background.

Record Client : Type := { NewFromConfig : Config }.

(** The package-level variables [ctx] and [cwl]. *)
Record Globals : Type := { ctx : option Context; cwl : option Client }.

Definition initial : Globals := {| ctx := None; cwl := None |}.

(** [getCloudWatchLogsClient]; [LoadDefaultConfig] is what
    [config.LoadDefaultConfig(ctx)] returns in this process. *)
Definition getCloudWatchLogsClient (g : Globals) (LoadDefaultConfig : Config + error)
  : Globals * (option Client * option Context + error) :=
  match cwl g with
  | None =>
      let g := {| ctx := Some Background; cwl := cwl g |} in
      match LoadDefaultConfig with
      | inr err => (g, inr err)
      | inl c =>
          let g := {| ctx := ctx g; cwl := Some {| NewFromConfig := c |} |} in
          (g, inl (cwl g, ctx g))
      end
  | Some _ => (g, inl (cwl g, ctx g))
  end.

(** The variables the [for] loop of [getLogsSince] carries around. *)
Record loopState : Type := {
  params : GetLogEventsInput;
  nextToken : option string;
  attempts : Z;
  foundLogs : list string
}.

(** How one turn of the loop ends. *)
Inductive control : Type :=
| Continue (st : loopState)
| Break (found : list string)
| Return (found : list string) (err : error).

(** [if nextToken != nil { params.NextToken = nextToken }] *)
Definition setNextToken (st : loopState) : loopState :=
  match nextToken st with
  | Some _ =>
      let p := params st in
      {| params := {| LogGroupName := LogGroupName p;
                      LogStreamName := LogStreamName p;
                      StartFromHead := StartFromHead p;
                      StartTime := StartTime p;
                      EndTime := EndTime p;
                      NextToken := nextToken st |};
         nextToken := nextToken st;
         attempts := attempts st;
         foundLogs := foundLogs st |}
  | None => st
  end.

(** [for _, e := range output.Events { foundLogs = append(foundLogs, *e.Message) }] *)
Fixpoint appendMessages (found : list string) (events : list OutputLogEvent)
  : M (list string) :=
  match events with
  | [] => ret found
  | e :: events' =>
      m <- deref (Message e) ;;
      appendMessages (found ++ [m]) events'
  end.

(** [nextToken != nil && output.NextForwardToken != nil &&
     *output.NextForwardToken == *nextToken] *)
Definition sameToken (nextToken forward : option string) : bool :=
  match nextToken, forward with
  | Some t, Some t' => String.eqb t' t
  | _, _ => false
  end.

(** The loop body from [attempts += 1] on, given what the call returned. *)
Definition afterCall (logGroup logStream : string) (st : loopState)
  (resp : reply GetLogEventsOutput) : M control :=
  let attempts := int_add (attempts st) 1 in
  match resp with
  | inr err =>
      if isResourceNotFound err && (attempts <=? allowedRetries)%Z then
        emit (EvSleep Minute) ;;
        ret (Continue {| params := params st; nextToken := nextToken st;
                         attempts := attempts; foundLogs := foundLogs st |})
      else ret (Return (foundLogs st) err)
  | inl output =>
      found <- appendMessages (foundLogs st) (Events output) ;;
      if sameToken (nextToken st) (NextForwardToken output) then
        log_Printf "Done paginating log events for %s/%s and found %d logs"
          [ArgString logGroup; ArgString logStream;
           ArgInt (Z.of_nat (List.length found))] ;;
        ret (Break found)
      else
        ret (Continue {| params := params st;
                         nextToken := NextForwardToken output;
                         attempts := attempts; foundLogs := found |})
  end.

(** The [for] loop.  [backend] scripts the service: its k-th element is what
    the k-th [GetLogEvents] call returns.  The loop has no bound of its own;
    when the script runs out before the loop ends the outcome is [Pending]. *)
Fixpoint paginate (logGroup logStream : string) (st : loopState)
  (backend : list (reply GetLogEventsOutput)) : M (list string * option error) :=
  match backend with
  | [] => (Pending, [])
  | resp :: backend' =>
      let st := setNextToken st in
      emit (EvGetLogEvents (params st) resp) ;;
      c <- afterCall logGroup logStream st resp ;;
      match c with
      | Continue st' => paginate logGroup logStream st' backend'
      | Break found => ret (found, None)
      | Return found err => ret (found, Some err)
      end
  end.

(** [t.UnixNano() / 1e6]: integer division truncates toward zero. *)
Definition millis (t : Time) : Z := Z.quot (UnixNano t) 1000000.

Definition initialParams (logGroup logStream : string) (since until : option Time)
  : GetLogEventsInput :=
  {| LogGroupName := Some logGroup;
     LogStreamName := Some logStream;
     StartFromHead := Some true;
     StartTime := option_map millis since;
     EndTime := option_map millis until;
     NextToken := None |}.

Definition initialLoop (logGroup logStream : string) (since until : option Time)
  : loopState :=
  {| params := initialParams logGroup logStream since until;
     nextToken := None; attempts := 0; foundLogs := [] |}.

Definition getLogsSince (g : Globals) (LoadDefaultConfig : Config + error)
  (logGroup logStream : string) (since until : option Time)
  (backend : list (reply GetLogEventsOutput))
  : Globals * M (list string * option error) :=
  match getCloudWatchLogsClient g LoadDefaultConfig with
  | (g', inr err) => (g', ret ([], Some err))
  | (g', inl _) =>
      (g', paginate logGroup logStream (initialLoop logGroup logStream since until) backend)
  end.

(** [validator] is a Go closure; each time it is called the trace records
    the argument it was called with. *)
Definition ValidateLogs (g : Globals) (LoadDefaultConfig : Config + error)
  (logGroup logStream : string) (since until : option Time)
  (validator : list string -> bool)
  (backend : list (reply GetLogEventsOutput))
  : Globals * M (bool * option error) :=
  match since with
  | None => (g, panic)                     (* [since.UTC()] through a nil pointer *)
  | Some t =>
      let (g', fetch) :=
        getLogsSince g LoadDefaultConfig logGroup logStream since until backend in
      (g',
       log_Printf "Checking %s/%s since %s"
         [ArgString logGroup; ArgString logStream; ArgTime t] ;;
       r <- fetch ;;
       let (found, err) := r in
       match err with
       | Some e => ret (false, Some e)
       | None =>
           emit (EvValidator found) ;;
           ret (validator found, None)
       end)
  end.

(** [log.Println(msg, err)] *)
Definition log_Println (msg : string) (err : error) : M unit :=
  emit (EvLog msg [ArgError err]).

(** [describe] is the service's answer to a [DescribeLogGroups] request. *)
Definition IsLogGroupExists (g : Globals) (LoadDefaultConfig : Config + error)
  (describe : DescribeLogGroupsInput -> reply DescribeLogGroupsOutput)
  (logGroupName : string) : Globals * M bool :=
  match getCloudWatchLogsClient g LoadDefaultConfig with
  | (g', inr err) =>
      (g', log_Println "error occurred while creating CWL client" err ;; ret false)
  | (g', inl _) =>
      let describeLogGroupInput := {| LogGroupNamePrefix := Some logGroupName |} in
      (g',
       emit (EvDescribeLogGroups describeLogGroupInput) ;;
       match describe describeLogGroupInput with
       | inr err =>
           log_Println "error occurred while calling DescribeLogGroups" err ;;
           ret false
       | inl describeLogGroupOutput =>
           ret (0 <? List.length (LogGroups describeLogGroupOutput))%nat
       end)
  end.

(** ** Reading a run of the loop *)

(** The messages of a page, in the order the backend sent them. *)
Definition eventMessages (events : list OutputLogEvent) : list string :=
  flat_map (fun e => match Message e with Some m => [m] | None => [] end) events.

(** The pages the backend returned during a run, in order. *)
Definition pages (tr : list event) : list GetLogEventsOutput :=
  flat_map (fun e => match e with
                     | EvGetLogEvents _ (inl output) => [output]
                     | _ => []
                     end) tr.

(** The [GetLogEvents] call a loop turn issues from state [st]. *)
Definition callOf (st : loopState) (resp : reply GetLogEventsOutput) : event :=
  EvGetLogEvents (params (setNextToken st)) resp.

(** The loop state after a retry, and after a page that does not end the
    pagination. *)
Definition retried (st : loopState) : loopState :=
  {| params := params (setNextToken st);
     nextToken := nextToken st;
     attempts := int_add (attempts st) 1;
     foundLogs := foundLogs st |}.

Definition turned (st : loopState) (output : GetLogEventsOutput) : loopState :=
  {| params := params (setNextToken st);
     nextToken := NextForwardToken output;
     attempts := int_add (attempts st) 1;
     foundLogs := foundLogs st ++ eventMessages (Events output) |}.

(** One failed call followed by the wait before the next one. *)
Definition retryTrace (st : loopState) (err : error) (k : nat) : list event :=
  List.concat (repeat [callOf st (inr err); EvSleep Minute] k).

(** The five ways a turn of the loop can go on the answer [resp]: retry
    after a wait, return the error, panic on a nil message, stop on a
    repeated token, or go on to the next page. *)
Inductive turn_of (logGroup logStream : string) (st : loopState) (resp : reply GetLogEventsOutput)
  (rest : list (reply GetLogEventsOutput)) : Prop :=
| turn_retry msg
    (Hresp : resp = inr (ResourceNotFoundException msg))
    (Hbudget : (int_add (attempts st) 1 <= allowedRetries)%Z)
    (Hrun : paginate logGroup logStream st (resp :: rest)
            = let (o, tr) := paginate logGroup logStream (retried st) rest in
              (o, callOf st resp :: EvSleep Minute :: tr))
| turn_error err
    (Hresp : resp = inr err)
    (Hfatal : isResourceNotFound err
              && (int_add (attempts st) 1 <=? allowedRetries)%Z = false)
    (Hrun : paginate logGroup logStream st (resp :: rest)
            = (Returned (foundLogs st, Some err), [callOf st resp]))
| turn_panic output
    (Hresp : resp = inl output)
    (Hrun : paginate logGroup logStream st (resp :: rest)
            = (Panicked, [callOf st resp]))
| turn_break output
    (Hresp : resp = inl output)
    (Hmsgs : Forall (fun e => Message e <> None) (Events output))
    (Hsame : sameToken (nextToken st) (NextForwardToken output) = true)
    (Hrun : paginate logGroup logStream st (resp :: rest)
            = (Returned (foundLogs st ++ eventMessages (Events output), None),
               [callOf st resp;
                EvLog "Done paginating log events for %s/%s and found %d logs"
                  [ArgString logGroup; ArgString logStream;
                   ArgInt (Z.of_nat (List.length
                     (foundLogs st ++ eventMessages (Events output))))]]))
| turn_next output
    (Hresp : resp = inl output)
    (Hmsgs : Forall (fun e => Message e <> None) (Events output))
    (Hsame : sameToken (nextToken st) (NextForwardToken output) = false)
    (Hrun : paginate logGroup logStream st (resp :: rest)
            = let (o, tr) := paginate logGroup logStream (turned st output) rest in
              (o, callOf st resp :: tr)).

(** ** Cleanup *)

(** What the cleanup functions do that can be observed: a log line, or one
    of the two delete calls together with the error it came back with. *)
Inductive cleanupEvent : Type :=
| CleanupLog (format : string) (args : list logarg)
| CallDeleteLogStream (input : DeleteLogStreamInput.t) (err : option error)
| CallDeleteLogGroup (input : DeleteLogGroupInput.t) (err : option error).

(** [err != nil && !errors.As(err, &rnf)] *)
Definition worthLogging (err : option error) : bool :=
  match err with
  | Some e => negb (isResourceNotFound e)
  | None => false
  end.

(** [DeleteLogStream]; [service] is the error the [DeleteLogStream] call of
    the SDK comes back with. *)
Definition DeleteLogStream (g : Globals) (LoadDefaultConfig : Config + error)
  (service : DeleteLogStreamInput.t -> option error)
  (logGroupName logStreamName : string) : Globals * list cleanupEvent :=
  match getCloudWatchLogsClient g LoadDefaultConfig with
  | (g', inr err) =>
      (g', [CleanupLog "Error occurred while creating CloudWatch Logs SDK client: %v"
              [ArgError err]])
  | (g', inl _) =>
      let input := {| DeleteLogStreamInput.LogGroupName := Some logGroupName;
                      DeleteLogStreamInput.LogStreamName := Some logStreamName |} in
      let err := service input in
      (g',
       CallDeleteLogStream input err ::
       match err with
       | Some e =>
           if worthLogging err
           then [CleanupLog "Error occurred while deleting log stream %s: %v"
                   [ArgString logStreamName; ArgError e]]
           else []
       | None => []
       end)
  end.

(** [DeleteLogGroup] *)
Definition DeleteLogGroup (g : Globals) (LoadDefaultConfig : Config + error)
  (service : DeleteLogGroupInput.t -> option error)
  (logGroupName : string) : Globals * list cleanupEvent :=
  match getCloudWatchLogsClient g LoadDefaultConfig with
  | (g', inr err) =>
      (g', [CleanupLog "Error occurred while creating CloudWatch Logs SDK client: %v"
              [ArgError err]])
  | (g', inl _) =>
      let input := {| DeleteLogGroupInput.LogGroupName := Some logGroupName |} in
      let err := service input in
      (g',
       CallDeleteLogGroup input err ::
       match err with
       | Some e =>
           if worthLogging err
           then [CleanupLog "Error occurred while deleting log group %s: %v"
                   [ArgString logGroupName; ArgError e]]
           else []
       | None => []
       end)
  end.

(** [DeleteLogGroupAndStream]; [loadFirst] and [loadAgain] are what
    [config.LoadDefaultConfig] returns to the first and to the second of the
    two functions, should they have to create the client. *)
Definition DeleteLogGroupAndStream (g : Globals) (loadFirst loadAgain : Config + error)
  (streams : DeleteLogStreamInput.t -> option error)
  (groups : DeleteLogGroupInput.t -> option error)
  (logGroupName logStreamName : string) : Globals * list cleanupEvent :=
  let (g1, tr1) := DeleteLogStream g loadFirst streams logGroupName logStreamName in
  let (g2, tr2) := DeleteLogGroup g1 loadAgain groups logGroupName in
  (g2, tr1 ++ tr2).

(** The log lines and the delete calls of a cleanup trace. *)
Definition cleanupLogs (tr : list cleanupEvent) : list cleanupEvent :=
  filter (fun e => match e with CleanupLog _ _ => true | _ => false end) tr.

Definition cleanupCalls (tr : list cleanupEvent) : list cleanupEvent :=
  filter (fun e => match e with CleanupLog _ _ => false | _ => true end) tr.

(** ** Reading a run of the loop, continued *)

(** The requests sent during a run, in order. *)
Definition requests (tr : list event) : list GetLogEventsInput :=
  flat_map (fun e => match e with EvGetLogEvents p _ => [p] | _ => [] end) tr.

(** The [DescribeLogGroups] requests of a trace. *)
Definition describeCalls (tr : list event) : list DescribeLogGroupsInput :=
  flat_map (fun e => match e with EvDescribeLogGroups i => [i] | _ => [] end) tr.

(** A request with everything but the token as [getLogsSince] sets it up. *)
Definition sameQuery (logGroup logStream : string) (since until : option Time)
  (p : GetLogEventsInput) : Prop :=
  LogGroupName p = Some logGroup /\
  LogStreamName p = Some logStream /\
  StartFromHead p = Some true /\
  StartTime p = option_map millis since /\
  EndTime p = option_map millis until.

(** Everything in a request but its token. *)
Definition queryOf (p : GetLogEventsInput)
  : option string * option string * option bool * option Z * option Z :=
  (LogGroupName p, LogStreamName p, StartFromHead p, StartTime p, EndTime p).

(** A scripted answer that is a page, not an error. *)
Definition isPage (resp : reply GetLogEventsOutput) : bool :=
  match resp with inl _ => true | inr _ => false end.

End awsservice.

(* ================================================================== *)
(** * Sample inputs                                                     *)
(* ================================================================== *)

(** Concrete providers, instructions and backend scripts on which the
    statements below are exercised. *)
Module sample.
Import dimension.

(** A provider that answers the key [InstanceId] with a fixed host id and
    declines everything else. *)
Definition instanceIdProvider (id : string) : IProvider :=
  {| IsApplicable := true;
     GetDimension := fun ins =>
       if String.eqb (Key ins) "InstanceId"
       then {| types.Name := Some "InstanceId"; types.Value := Some id |}
       else types.zero |}.

(** A provider that echoes an instruction carrying a literal value. *)
Definition literalProvider : IProvider :=
  {| IsApplicable := true;
     GetDimension := fun ins =>
       match Value (Expected ins) with
       | Some v => {| types.Name := Some (Key ins); types.Value := Some v |}
       | None => types.zero
       end |}.

(** A provider that is not applicable in the environment at hand. *)
Definition inapplicable (p : IProvider) : IProvider :=
  {| IsApplicable := false; GetDimension := GetDimension p |}.

Definition noProviders : Factory := {| providers := [] |}.

Definition hostOnly : Factory :=
  GetDimensionFactory [instanceIdProvider "i-0abc"].

(** The factory of a host on which the instance-id provider does not apply:
    only the literal provider is left. *)
Definition noHost : Factory :=
  GetDimensionFactory [inapplicable (instanceIdProvider "i-0abc"); literalProvider].

Definition unknownInstanceId : Instruction :=
  {| Key := "InstanceId"; Expected := UnknownDimensionValue |}.

Definition unknownCluster : Instruction :=
  {| Key := "ClusterName"; Expected := UnknownDimensionValue |}.

Definition literalInstanceId : Instruction :=
  {| Key := "InstanceId"; Expected := {| Value := Some "i-literal" |} |}.

(** A remote metrics service that answers every query with [values]. *)
Definition steadyRemote (values : list float64)
  : string -> string -> list types.Dimension -> metric.Statistic ->
    list float64 * option error :=
  fun _ _ _ _ => (values, None).

Definition swapRunner (f : Factory) : metric_value_benchmark.SwapTestRunner :=
  {| metric_value_benchmark.SwapBase :=
       {| metric_value_benchmark.DimensionFactory := f |} |}.

Definition memRunner (f : Factory) : metric_value_benchmark.MemTestRunner :=
  {| metric_value_benchmark.MemBase :=
       {| metric_value_benchmark.DimensionFactory := f |} |}.

Definition cfg : awsservice.Config := {| awsservice.Region := "us-west-2" |}.

(** A page of log events with the given forward token. *)
Definition page (messages : list string) (token : option string)
  : cloudwatchlogs.reply cloudwatchlogs.GetLogEventsOutput :=
  inl {| cloudwatchlogs.Events :=
           map (fun m => {| cloudwatchlogs.Message := Some m |}) messages;
         cloudwatchlogs.NextForwardToken := token |}.

Definition notFound : error :=
  ResourceNotFoundException "The specified log stream does not exist.".

Definition denied : error := OtherError "AccessDeniedException".

Definition epoch : Time := {| UnixNano := 1700000000123456789 |}.

(** A log-group listing the service may return for a name prefix. *)
Definition listing (names : list string)
  : cloudwatchlogs.DescribeLogGroupsInput ->
    cloudwatchlogs.reply cloudwatchlogs.DescribeLogGroupsOutput :=
  fun input =>
    inl {| cloudwatchlogs.LogGroups :=
             map (fun n => {| cloudwatchlogs.GroupName := Some n |})
               (filter (fun n => match cloudwatchlogs.LogGroupNamePrefix input with
                                 | Some p => String.prefix p n
                                 | None => true
                                 end) names) |}.

(** The request [getLogsSince] sends for group ["g"], stream ["s"] and no
    time bounds, with the given token. *)
Definition request (token : option string) : cloudwatchlogs.GetLogEventsInput :=
  {| cloudwatchlogs.LogGroupName := Some "g";
     cloudwatchlogs.LogStreamName := Some "s";
     cloudwatchlogs.StartFromHead := Some true;
     cloudwatchlogs.StartTime := None;
     cloudwatchlogs.EndTime := None;
     cloudwatchlogs.NextToken := token |}.

(** A loop state in the middle of a pagination that last received [token]. *)
Definition midway (token : option string) (n : Z) (found : list string)
  : awsservice.loopState :=
  {| awsservice.params := request token;
     awsservice.nextToken := token;
     awsservice.attempts := n;
     awsservice.foundLogs := found |}.

(** A service whose [DescribeLogGroups] fails. *)
Definition unreachable
  : cloudwatchlogs.DescribeLogGroupsInput ->
    cloudwatchlogs.reply cloudwatchlogs.DescribeLogGroupsOutput :=
  fun _ => inr denied.

(** A provider that fills in the value but leaves the name [nil]. *)
Definition namelessProvider : IProvider :=
  {| IsApplicable := true;
     GetDimension := fun _ => {| types.Name := None; types.Value := Some "v" |} |}.

(** A remote metrics service whose every query fails. *)
Definition failingRemote
  : string -> string -> list types.Dimension -> metric.Statistic ->
    list float64 * option error :=
  fun _ _ _ _ => ([], Some denied).

(** Delete calls that find nothing to delete, and delete calls that are
    refused. *)
Definition streamGone : DeleteLogStreamInput.t -> option error :=
  fun _ => Some notFound.

Definition groupGone : DeleteLogGroupInput.t -> option error :=
  fun _ => Some notFound.

Definition streamRefused : DeleteLogStreamInput.t -> option error :=
  fun _ => Some denied.

Definition groupDeleted : DeleteLogGroupInput.t -> option error :=
  fun _ => None.

End sample.

(* ================================================================== *)
(** * Properties of package [dimension]                                 *)
(* ================================================================== *)

Section DimensionFacts.
Import dimension.

Lemma isZero_true (dim : types.Dimension) :
  types.isZero dim = true <-> dim = types.zero.
Proof.
  destruct dim as [[n|] [v|]]; unfold types.isZero, types.zero; simpl;
    split; intro H; try reflexivity; discriminate H.
Qed.

Lemma isZero_false (dim : types.Dimension) :
  types.isZero dim = false <-> dim <> types.zero.
Proof.
  rewrite <- isZero_true. destruct (types.isZero dim); split; congruence.
Qed.

(** Providers that decline an instruction are skipped. *)
Lemma executeInstruction_range_skip (before rest : list IProvider) ins :
  Forall (fun q => GetDimension q ins = types.zero) before ->
  executeInstruction_range (before ++ rest) ins = executeInstruction_range rest ins.
Proof.
  induction 1 as [|q before Hq _ IH]; simpl; [reflexivity|].
  rewrite Hq. simpl. exact IH.
Qed.

(** An instruction nobody resolves makes the loop of [GetDimensions] panic,
    wherever it stands in the list and whatever was collected before. *)
Lemma GetDimensions_range_unfulfilled f instructions :
  Exists (fun i => executeInstruction f i = types.zero) instructions ->
  forall resolved unfulfilled,
    fst (GetDimensions_range f instructions resolved unfulfilled) = Panicked.
Proof.
  induction instructions as [|i rest IH]; intros Hex resolved unfulfilled.
  - inversion Hex.
  - simpl. destruct (types.isZero (executeInstruction f i)) eqn:Hz; simpl.
    + apply isZero_true in Hz. rewrite Hz. reflexivity.
    + assert (Hrest : Exists (fun i => executeInstruction f i = types.zero) rest).
      { inversion Hex as [? ? Hi|]; subst; [|assumption].
        apply isZero_false in Hz. contradiction. }
      destruct (types.Name (executeInstruction f i)) as [n|]; [|reflexivity].
      destruct (types.Value (executeInstruction f i)) as [v|]; [|reflexivity].
      simpl.
      specialize (IH Hrest (resolved ++ [executeInstruction f i]) unfulfilled).
      destruct (GetDimensions_range f rest _ unfulfilled) as [o tr].
      simpl in *. subst o. reflexivity.
Qed.

(** Whenever the loop returns at all, nothing was left unfulfilled and the
    resolved dimensions are those of the instructions, in their order. *)
Lemma GetDimensions_range_returned f instructions :
  forall resolved unfulfilled dims failed tr,
    GetDimensions_range f instructions resolved unfulfilled
      = (Returned (dims, failed), tr) ->
    dims = resolved ++ map (executeInstruction f) instructions /\
    failed = unfulfilled.
Proof.
  induction instructions as [|i rest IH]; intros resolved unfulfilled dims failed tr.
  - simpl. unfold ret. intros H. inversion H. rewrite app_nil_r. auto.
  - simpl. destruct (types.isZero (executeInstruction f i)) eqn:Hz; simpl.
    + apply isZero_true in Hz. rewrite Hz. simpl. discriminate.
    + destruct (types.Name (executeInstruction f i)) as [n|]; [|discriminate].
      destruct (types.Value (executeInstruction f i)) as [v|]; [|discriminate].
      simpl.
      destruct (GetDimensions_range f rest (resolved ++ [executeInstruction f i])
                  unfulfilled) as [o tr'] eqn:Hrec.
      intros H. inversion H. subst o.
      apply IH in Hrec. destruct Hrec as [-> ->].
      rewrite <- app_assoc. auto.
Qed.

End DimensionFacts.

Section DimensionClaims.
Import dimension.

(** Claim C9.  [IsKnown] answers [true] exactly when the [Value] pointer is
    [nil]; in particular the value built by [UnknownDimensionValue] answers
    [true]. *)
Theorem IsKnown_iff_Value_nil :
  (forall d : ExpectedDimensionValue, IsKnown d = true <-> Value d = None) /\
  IsKnown UnknownDimensionValue = true.
Proof.
  split; [|reflexivity].
  intros [[v|]]; unfold IsKnown; simpl; split; intro H;
    try reflexivity; discriminate H.
Qed.

(** Claim C2, refuted as stated.  An instruction that carries the literal
    ["i-literal"] is not resolved to (InstanceId, i-literal) by a factory
    without providers: the factory hands back the empty dimension; and the
    answer changes with the provider set. *)
Lemma literal_instruction_depends_on_providers :
  executeInstruction sample.noProviders sample.literalInstanceId = types.zero /\
  executeInstruction sample.noProviders sample.literalInstanceId
    <> {| types.Name := Some "InstanceId"; types.Value := Some "i-literal" |} /\
  executeInstruction sample.hostOnly sample.literalInstanceId
    = {| types.Name := Some "InstanceId"; types.Value := Some "i-0abc" |}.
Proof.
  repeat split; try reflexivity. discriminate.
Qed.

(** Claim C2, amended.  Whatever the instruction's expected value, the
    factory asks its providers in order and answers with the first
    non-empty dimension one of them produces; when every provider declines
    (so also when there is none) the answer is the empty dimension. *)
Theorem executeInstruction_first_answer (f : Factory) (ins : Instruction) :
  (forall before p after,
      providers f = before ++ p :: after ->
      Forall (fun q => GetDimension q ins = types.zero) before ->
      GetDimension p ins <> types.zero ->
      executeInstruction f ins = GetDimension p ins) /\
  (Forall (fun q => GetDimension q ins = types.zero) (providers f) ->
   executeInstruction f ins = types.zero).
Proof.
  unfold executeInstruction. split.
  - intros before p after Hsplit Hbefore Hp.
    rewrite Hsplit, executeInstruction_range_skip by assumption.
    simpl. apply isZero_false in Hp. rewrite Hp. reflexivity.
  - intros Hall.
    rewrite <- (app_nil_r (providers f)).
    rewrite executeInstruction_range_skip by assumption. reflexivity.
Qed.

Lemma executeInstruction_first_answer_witness :
  executeInstruction
    {| providers := [sample.instanceIdProvider "i-0abc"; sample.literalProvider] |}
    {| Key := "Mode"; Expected := {| Value := Some "EC2" |} |}
    = {| types.Name := Some "Mode"; types.Value := Some "EC2" |} /\
  executeInstruction sample.noProviders sample.literalInstanceId = types.zero.
Proof.
  split.
  - apply (proj1 (executeInstruction_first_answer
                    {| providers := [sample.instanceIdProvider "i-0abc";
                                     sample.literalProvider] |}
                    {| Key := "Mode"; Expected := {| Value := Some "EC2" |} |})
             [sample.instanceIdProvider "i-0abc"] sample.literalProvider []).
    + reflexivity.
    + constructor; [reflexivity | constructor].
    + simpl. discriminate.
  - apply (proj2 (executeInstruction_first_answer sample.noProviders
                    sample.literalInstanceId)).
    constructor.
Defined.

(** Claim C4, on the code.  As soon as the list holds an instruction that no
    provider resolves, [GetDimensions] does not complete: formatting the
    "unfulfilled dim" log line dereferences the empty dimension's [nil]
    name and the call panics. *)
Theorem GetDimensions_unfulfilled_panics (f : Factory) (instructions : list Instruction) :
  Exists (fun i => executeInstruction f i = types.zero) instructions ->
  fst (GetDimensions f instructions) = Panicked.
Proof.
  intros H. unfold GetDimensions.
  apply GetDimensions_range_unfulfilled. exact H.
Qed.

Lemma GetDimensions_unfulfilled_panics_witness :
  Exists (fun i => executeInstruction sample.noProviders i = types.zero)
    [sample.unknownInstanceId] /\
  fst (GetDimensions sample.noProviders [sample.unknownInstanceId]) = Panicked.
Proof.
  split.
  - apply Exists_cons_hd. reflexivity.
  - apply GetDimensions_unfulfilled_panics. apply Exists_cons_hd. reflexivity.
Defined.

(** Claim C1, on the code.  With a provider for [InstanceId] only, the list
    [InstanceId; ClusterName] should split into one resolved dimension and
    one unfulfilled instruction.  The code logs the resolved dimension and
    then panics on the unfulfilled one: no pair of outputs is produced. *)
Theorem GetDimensions_no_outputs_when_unfulfilled :
  GetDimensions sample.hostOnly [sample.unknownInstanceId; sample.unknownCluster]
  = (Panicked,
     [EvLog "Result dim is : %s, %s" [ArgString "InstanceId"; ArgString "i-0abc"]]).
Proof. reflexivity. Qed.

(** When every instruction resolves to a dimension with both fields set,
    [GetDimensions] returns them in input order and leaves nothing
    unfulfilled. *)
Lemma GetDimensions_all_resolved (f : Factory) (instructions : list Instruction) :
  Forall (fun i => exists n v,
            executeInstruction f i = {| types.Name := Some n; types.Value := Some v |})
    instructions ->
  fst (GetDimensions f instructions)
    = Returned (map (executeInstruction f) instructions, []).
Proof.
  unfold GetDimensions.
  change (map (executeInstruction f) instructions)
    with ([] ++ map (executeInstruction f) instructions).
  generalize (@nil types.Dimension) as resolved.
  induction instructions as [|i rest IH]; intros resolved Hall; simpl.
  - rewrite app_nil_r. reflexivity.
  - inversion Hall as [|? ? [n [v Hi]] Hrest]; subst.
    rewrite Hi. simpl.
    specialize (IH (resolved ++ [{| types.Name := Some n; types.Value := Some v |}]) Hrest).
    destruct (GetDimensions_range f rest _ []) as [o tr]. simpl in *.
    rewrite IH, <- app_assoc. reflexivity.
Qed.

End DimensionClaims.

(* ================================================================== *)
(** * Properties of the Swap and Mem runners                            *)
(* ================================================================== *)

Section RunnerClaims.
Import dimension metric_value_benchmark status.

Variable namespace : string.
Variable remote : string -> string -> list types.Dimension -> metric.Statistic ->
  list float64 * option error.

Lemma ltZero_not_geZero (v : float64) : ltZero v = true -> geZero v = false.
Proof.
  destruct v as [|[|]|m e]; simpl; intro H; try reflexivity; try discriminate H.
  apply Z.ltb_lt in H. apply Z.leb_gt. exact H.
Qed.

Lemma isAllValues_nonnegative metricName (values : list float64) :
  values <> [] -> Forall (fun v => geZero v = true) values ->
  isAllValuesGreaterThanOrEqualToZero metricName values = true.
Proof.
  intros Hne Hall. destruct values as [|v values]; [congruence|].
  unfold isAllValuesGreaterThanOrEqualToZero.
  apply forallb_forall. apply Forall_forall. exact Hall.
Qed.

Lemma isAllValues_negative metricName (values : list float64) :
  Exists (fun v => ltZero v = true) values ->
  isAllValuesGreaterThanOrEqualToZero metricName values = false.
Proof.
  intros Hex. destruct values as [|v values]; [reflexivity|].
  unfold isAllValuesGreaterThanOrEqualToZero.
  destruct (forallb geZero (v :: values)) eqn:Hall; [|reflexivity].
  apply Exists_exists in Hex. destruct Hex as [x [Hin Hx]].
  rewrite forallb_forall in Hall. specialize (Hall x Hin).
  apply ltZero_not_geZero in Hx. congruence.
Qed.

(** Once the dimensions resolve and the fetch returns no error, the verdict
    is decided by the sample check alone. *)
Lemma validateSwapMetric_fetched (f : Factory) metricName dims values tr :
  GetDimensions f [instanceIdInstruction] = (Returned (dims, []), tr) ->
  remote namespace metricName dims metric.AVERAGE = (values, None) ->
  fst (validateSwapMetric namespace remote (sample.swapRunner f) metricName)
  = Returned {| Name := metricName;
                Status := if isAllValuesGreaterThanOrEqualToZero metricName values
                          then SUCCESSFUL else FAILED |}.
Proof.
  intros Hdims Hremote. unfold validateSwapMetric. simpl.
  rewrite Hdims. simpl. rewrite Hremote. simpl.
  destruct (isAllValuesGreaterThanOrEqualToZero metricName values); reflexivity.
Qed.

Lemma validateMemMetric_fetched (f : Factory) metricName dims values tr :
  GetDimensions f [instanceIdInstruction] = (Returned (dims, []), tr) ->
  remote namespace metricName dims metric.AVERAGE = (values, None) ->
  fst (validateMemMetric namespace remote (sample.memRunner f) metricName)
  = Returned {| Name := metricName;
                Status := if isAllValuesGreaterThanOrEqualToZero metricName values
                          then SUCCESSFUL else FAILED |}.
Proof.
  intros Hdims Hremote. unfold validateMemMetric. simpl.
  rewrite Hdims. simpl. rewrite Hremote. simpl.
  destruct (isAllValuesGreaterThanOrEqualToZero metricName values); reflexivity.
Qed.

(** Claim C5.  For a metric without Bounds whose dimensions resolve and
    whose fetch succeeds with [values]: a non-empty sequence whose values
    are all >= 0 gives the verdict successful; a sequence holding a value
    < 0 gives failed; an empty sequence gives failed.  Holds alike for the
    Swap and the Mem runner. *)
Theorem verdict_follows_samples (f : Factory) metricName dims values tr :
  GetDimensions f [instanceIdInstruction] = (Returned (dims, []), tr) ->
  remote namespace metricName dims metric.AVERAGE = (values, None) ->
  let swap := fst (validateSwapMetric namespace remote (sample.swapRunner f) metricName) in
  let mem := fst (validateMemMetric namespace remote (sample.memRunner f) metricName) in
  (values <> [] -> Forall (fun v => geZero v = true) values ->
   swap = Returned {| Name := metricName; Status := SUCCESSFUL |} /\
   mem = Returned {| Name := metricName; Status := SUCCESSFUL |}) /\
  (Exists (fun v => ltZero v = true) values ->
   swap = Returned {| Name := metricName; Status := FAILED |} /\
   mem = Returned {| Name := metricName; Status := FAILED |}) /\
  (values = [] ->
   swap = Returned {| Name := metricName; Status := FAILED |} /\
   mem = Returned {| Name := metricName; Status := FAILED |}).
Proof.
  intros Hdims Hremote swap mem. subst swap mem.
  rewrite (validateSwapMetric_fetched f metricName dims values tr Hdims Hremote).
  rewrite (validateMemMetric_fetched f metricName dims values tr Hdims Hremote).
  split; [|split].
  - intros Hne Hall.
    rewrite isAllValues_nonnegative by assumption. split; reflexivity.
  - intros Hex.
    rewrite isAllValues_negative by assumption. split; reflexivity.
  - intros ->. split; reflexivity.
Qed.

(** Claim C7, on the code.  When no provider resolves [InstanceId], neither
    runner returns a failed TestResult: the call to [GetDimensions] panics
    inside the runner.  The fetcher is not invoked before that. *)
Theorem validate_panics_when_unfulfilled (f : Factory) metricName :
  executeInstruction f instanceIdInstruction = types.zero ->
  let swap := validateSwapMetric namespace remote (sample.swapRunner f) metricName in
  let mem := validateMemMetric namespace remote (sample.memRunner f) metricName in
  fst swap = Panicked /\ fetchCalls (snd swap) = 0%nat /\
  fst mem = Panicked /\ fetchCalls (snd mem) = 0%nat.
Proof.
  intros H swap mem. subst swap mem.
  unfold validateSwapMetric, validateMemMetric, GetDimensions. simpl.
  rewrite H. simpl. repeat split.
Qed.

(** None of the measured metrics of the two runners carries Bounds. *)
Lemma measured_metrics_unbounded :
  Forall (fun m => snd m = None)
    (SwapTestRunner_GetMeasuredMetrics ++ MemTestRunner_GetMeasuredMetrics).
Proof. repeat constructor. Qed.

End RunnerClaims.

Lemma verdict_follows_samples_witness :
  fst (metric_value_benchmark.validateSwapMetric "MetricValueBenchmarkTest"
         (sample.steadyRemote [Finite 100 0; Finite 120 0])
         (sample.swapRunner sample.hostOnly) "swap_free")
  = Returned {| status.Name := "swap_free"; status.Status := status.SUCCESSFUL |} /\
  fst (metric_value_benchmark.validateSwapMetric "MetricValueBenchmarkTest"
         (sample.steadyRemote [Finite (-1) 0]) (sample.swapRunner sample.hostOnly) "swap_used")
  = Returned {| status.Name := "swap_used"; status.Status := status.FAILED |} /\
  fst (metric_value_benchmark.validateMemMetric "MetricValueBenchmarkTest"
         (sample.steadyRemote []) (sample.memRunner sample.hostOnly) "mem_free")
  = Returned {| status.Name := "mem_free"; status.Status := status.FAILED |}.
Proof.
  pose (dims := [{| types.Name := Some "InstanceId"; types.Value := Some "i-0abc" |}]).
  pose (tr := [EvLog "Result dim is : %s, %s" [ArgString "InstanceId"; ArgString "i-0abc"]]).
  assert (Hdims : dimension.GetDimensions sample.hostOnly
                    [metric_value_benchmark.instanceIdInstruction]
                  = (Returned (dims, []), tr)) by reflexivity.
  split; [|split].
  - apply (proj1 (verdict_follows_samples "MetricValueBenchmarkTest"
                    (sample.steadyRemote [Finite 100 0; Finite 120 0])
                    sample.hostOnly "swap_free" dims [Finite 100 0; Finite 120 0] tr
                    Hdims eq_refl)).
    + discriminate.
    + repeat constructor.
  - apply (proj1 (proj2 (verdict_follows_samples "MetricValueBenchmarkTest"
                    (sample.steadyRemote [Finite (-1) 0])
                    sample.hostOnly "swap_used" dims [Finite (-1) 0] tr
                    Hdims eq_refl))).
    apply Exists_cons_hd. reflexivity.
  - apply (proj2 (proj2 (verdict_follows_samples "MetricValueBenchmarkTest"
                    (sample.steadyRemote [])
                    sample.hostOnly "mem_free" dims [] tr
                    Hdims eq_refl))).
    reflexivity.
Defined.

Lemma validate_panics_when_unfulfilled_witness :
  dimension.executeInstruction sample.noHost
    metric_value_benchmark.instanceIdInstruction = types.zero /\
  fst (metric_value_benchmark.validateSwapMetric "MetricValueBenchmarkTest"
         (sample.steadyRemote [Finite 1 0]) (sample.swapRunner sample.noHost) "swap_free")
  = Panicked /\
  fst (metric_value_benchmark.validateMemMetric "MetricValueBenchmarkTest"
         (sample.steadyRemote [Finite 1 0]) (sample.memRunner sample.noHost) "mem_free")
  = Panicked.
Proof.
  pose proof (validate_panics_when_unfulfilled "MetricValueBenchmarkTest"
                (sample.steadyRemote [Finite 1 0]) sample.noHost "swap_free"
                eq_refl) as Hswap.
  pose proof (validate_panics_when_unfulfilled "MetricValueBenchmarkTest"
                (sample.steadyRemote [Finite 1 0]) sample.noHost "mem_free"
                eq_refl) as Hmem.
  cbv zeta in Hswap, Hmem.
  split; [reflexivity|].
  split; [exact (proj1 Hswap) | exact (proj1 (proj2 (proj2 Hmem)))].
Defined.

(* ================================================================== *)
(** * Properties of package [awsservice]                                *)
(* ================================================================== *)

Section LogFacts.
Import awsservice cloudwatchlogs.

Variables logGroup logStream : string.

Lemma wrap64_small (z : Z) :
  (- 2 ^ 63 <= z < 2 ^ 63)%Z -> wrap64 z = z.
Proof.
  intros H. unfold wrap64. rewrite Z.mod_small; lia.
Qed.

Lemma setNextToken_idem (st : loopState) :
  setNextToken (setNextToken st) = setNextToken st.
Proof.
  unfold setNextToken. destruct (nextToken st) as [t|] eqn:Ht.
  - simpl. reflexivity.
  - rewrite Ht. reflexivity.
Qed.

Lemma setNextToken_retried (st : loopState) :
  setNextToken (retried st) = retried st.
Proof.
  unfold retried, setNextToken. simpl.
  destruct (nextToken st) as [t|]; reflexivity.
Qed.

Lemma foundLogs_setNextToken (st : loopState) :
  foundLogs (setNextToken st) = foundLogs st.
Proof. unfold setNextToken. destruct (nextToken st); reflexivity. Qed.

Lemma nextToken_setNextToken (st : loopState) :
  nextToken (setNextToken st) = nextToken st.
Proof. unfold setNextToken. destruct (nextToken st) eqn:H; simpl; congruence. Qed.

Lemma attempts_setNextToken (st : loopState) :
  attempts (setNextToken st) = attempts st.
Proof. unfold setNextToken. destruct (nextToken st); reflexivity. Qed.

(** A request carries the token held in [nextToken], when there is one. *)
Lemma request_carries_nextToken (st : loopState) (t : string) :
  nextToken st = Some t -> NextToken (params (setNextToken st)) = Some t.
Proof.
  intros H. unfold setNextToken. rewrite H. reflexivity.
Qed.

(** Copying the messages of a page never touches the backend, and succeeds
    exactly when no message pointer is [nil]. *)
Lemma appendMessages_total (events : list OutputLogEvent) :
  forall found,
    Forall (fun e => Message e <> None) events ->
    appendMessages found events = (Returned (found ++ eventMessages events), []).
Proof.
  induction events as [|e events IH]; intros found Hall; simpl.
  - rewrite app_nil_r. reflexivity.
  - inversion Hall as [|? ? He Hrest]; subst.
    destruct (Message e) as [m|] eqn:Hm; [|congruence].
    simpl. rewrite (IH (found ++ [m]) Hrest).
    unfold eventMessages. simpl.
    rewrite <- app_assoc. reflexivity.
Qed.

Lemma appendMessages_nil_message (events : list OutputLogEvent) :
  forall found,
    Exists (fun e => Message e = None) events ->
    appendMessages found events = (Panicked, []).
Proof.
  induction events as [|e events IH]; intros found Hex; simpl.
  - inversion Hex.
  - destruct (Message e) as [m|] eqn:Hm; simpl.
    + inversion Hex as [? ? He|? ? Hrest]; subst; [congruence|].
      rewrite (IH (found ++ [m]) Hrest). reflexivity.
    + reflexivity.
Qed.

Lemma messages_dec (events : list OutputLogEvent) :
  Forall (fun e => Message e <> None) events \/
  Exists (fun e => Message e = None) events.
Proof.
  induction events as [|e events [IH|IH]].
  - left. constructor.
  - destruct (Message e) as [m|] eqn:Hm.
    + left. constructor; [congruence | assumption].
    + right. apply Exists_cons_hd. assumption.
  - right. apply Exists_cons_tl. assumption.
Qed.

(** ** One turn of the loop, case by case *)

(** Open one turn of [paginate] and bring the loop variables back to [st]. *)
Ltac loop_turn :=
  cbn [paginate]; unfold afterCall;
  rewrite ?attempts_setNextToken, ?foundLogs_setNextToken, ?nextToken_setNextToken.

Ltac run_binds := cbn [bind emit ret log_Printf app].

Lemma paginate_retry (st : loopState) msg rest :
  (int_add (attempts st) 1 <= allowedRetries)%Z ->
  paginate logGroup logStream st (inr (ResourceNotFoundException msg) :: rest)
  = let (o, tr) := paginate logGroup logStream (retried st) rest in
    (o, callOf st (inr (ResourceNotFoundException msg)) :: EvSleep Minute :: tr).
Proof.
  intros H. apply Z.leb_le in H. loop_turn.
  cbn [isResourceNotFound andb]. rewrite H. run_binds.
  fold (retried st).
  destruct (paginate logGroup logStream (retried st) rest) as [o tr].
  reflexivity.
Qed.

Lemma paginate_error (st : loopState) err rest :
  isResourceNotFound err && (int_add (attempts st) 1 <=? allowedRetries)%Z = false ->
  paginate logGroup logStream st (inr err :: rest)
  = (Returned (foundLogs st, Some err), [callOf st (inr err)]).
Proof.
  intros H. loop_turn. rewrite H. reflexivity.
Qed.

Lemma paginate_nil_message (st : loopState) output rest :
  Exists (fun e => Message e = None) (Events output) ->
  paginate logGroup logStream st (inl output :: rest)
  = (Panicked, [callOf st (inl output)]).
Proof.
  intros H. loop_turn.
  rewrite (appendMessages_nil_message _ _ H). reflexivity.
Qed.

Lemma paginate_break (st : loopState) output rest :
  Forall (fun e => Message e <> None) (Events output) ->
  sameToken (nextToken st) (NextForwardToken output) = true ->
  paginate logGroup logStream st (inl output :: rest)
  = (Returned (foundLogs st ++ eventMessages (Events output), None),
     [callOf st (inl output);
      EvLog "Done paginating log events for %s/%s and found %d logs"
        [ArgString logGroup; ArgString logStream;
         ArgInt (Z.of_nat (List.length (foundLogs st ++ eventMessages (Events output))))]]).
Proof.
  intros Hall Hsame. loop_turn.
  rewrite (appendMessages_total _ _ Hall). run_binds. rewrite Hsame. reflexivity.
Qed.

Lemma paginate_turn (st : loopState) output rest :
  Forall (fun e => Message e <> None) (Events output) ->
  sameToken (nextToken st) (NextForwardToken output) = false ->
  paginate logGroup logStream st (inl output :: rest)
  = let (o, tr) := paginate logGroup logStream (turned st output) rest in
    (o, callOf st (inl output) :: tr).
Proof.
  intros Hall Hsame. loop_turn.
  rewrite (appendMessages_total _ _ Hall). run_binds. rewrite Hsame. run_binds.
  fold (turned st output).
  destruct (paginate logGroup logStream (turned st output) rest) as [o tr].
  reflexivity.
Qed.

(** Every turn of the loop is one of the five. *)
Lemma paginate_cases (st : loopState) resp rest :
  turn_of logGroup logStream st resp rest.
Proof.
  destruct resp as [output|err].
  - destruct (messages_dec (Events output)) as [Hok|Hnil].
    + destruct (sameToken (nextToken st) (NextForwardToken output)) eqn:Hsame.
      * eapply turn_break; eauto using paginate_break.
      * eapply turn_next; eauto using paginate_turn.
    + eapply turn_panic; eauto using paginate_nil_message.
  - destruct (isResourceNotFound err
              && (int_add (attempts st) 1 <=? allowedRetries)%Z) eqn:Hretry.
    + apply andb_true_iff in Hretry. destruct Hretry as [Hrnf Hle].
      destruct err as [msg|msg]; [|discriminate Hrnf].
      apply Z.leb_le in Hle.
      eapply turn_retry; eauto using paginate_retry.
    + eapply turn_error; eauto using paginate_error.
Qed.

(** ** What a whole run collects and how often it waits *)

(** The logs a successful run returns are the messages of the pages it
    received, in order, after those it started with. *)
Lemma paginate_found (backend : list (reply GetLogEventsOutput)) :
  forall st found tr,
    paginate logGroup logStream st backend = (Returned (found, None), tr) ->
    found = foundLogs st ++ flat_map (fun o => eventMessages (Events o)) (pages tr).
Proof.
  induction backend as [|resp rest IH]; intros st found tr Hrun.
  - discriminate Hrun.
  - destruct (paginate_cases st resp rest); rewrite Hrun0 in Hrun; subst resp.
    + destruct (paginate logGroup logStream (retried st) rest) as [o tr'] eqn:Hrec.
      inversion Hrun; subst. apply IH in Hrec. exact Hrec.
    + discriminate Hrun.
    + discriminate Hrun.
    + inversion Hrun; subst. simpl. rewrite app_nil_r. reflexivity.
    + destruct (paginate logGroup logStream (turned st output) rest) as [o tr'] eqn:Hrec.
      inversion Hrun; subst. apply IH in Hrec. rewrite Hrec. simpl.
      rewrite app_assoc. reflexivity.
Qed.

(** The loop itself never calls the validator. *)
Lemma paginate_no_validator (backend : list (reply GetLogEventsOutput)) :
  forall st, validatorCalls (snd (paginate logGroup logStream st backend)) = [].
Proof.
  induction backend as [|resp rest IH]; intros st.
  - reflexivity.
  - destruct (paginate_cases st resp rest); rewrite Hrun; try reflexivity.
    + specialize (IH (retried st)).
      destruct (paginate logGroup logStream (retried st) rest) as [o tr'].
      exact IH.
    + specialize (IH (turned st output)).
      destruct (paginate logGroup logStream (turned st output) rest) as [o tr'].
      exact IH.
Qed.

(** The loop waits a minute at a time, and at most as often as the attempt
    counter still allows. *)
Lemma paginate_sleeps (backend : list (reply GetLogEventsOutput)) :
  forall st,
    (0 <= attempts st)%Z ->
    (attempts st + Z.of_nat (List.length backend) < 2 ^ 63)%Z ->
    Forall (eq Minute) (sleeps (snd (paginate logGroup logStream st backend))) /\
    (Z.of_nat (List.length (sleeps (snd (paginate logGroup logStream st backend))))
     <= Z.max 0 (allowedRetries - attempts st))%Z.
Proof.
  unfold allowedRetries.
  induction backend as [|resp rest IH]; intros st Hpos Hlen.
  - simpl. split; [constructor | lia].
  - assert (Hadd : int_add (attempts st) 1 = (attempts st + 1)%Z).
    { unfold int_add. apply wrap64_small.
      change (List.length (resp :: rest)) with (S (List.length rest)) in Hlen. lia. }
    change (List.length (resp :: rest)) with (S (List.length rest)) in Hlen.
    destruct (paginate_cases st resp rest); rewrite Hrun; unfold callOf;
      try (cbn [snd sleeps flat_map app List.length]; split; [constructor | lia]).
    + specialize (IH (retried st)). cbn [attempts retried] in IH. rewrite Hadd in IH.
      destruct IH as [IHall IHlen]; [lia | lia |].
      destruct (paginate logGroup logStream (retried st) rest) as [o tr'].
      cbn [snd sleeps flat_map app List.length] in *.
      unfold allowedRetries in Hbudget. rewrite Hadd in Hbudget.
      split; [constructor; auto | lia].
    + specialize (IH (turned st output)). cbn [attempts turned] in IH. rewrite Hadd in IH.
      destruct IH as [IHall IHlen]; [lia | lia |].
      destruct (paginate logGroup logStream (turned st output) rest) as [o tr'].
      cbn [snd sleeps flat_map app List.length] in *.
      split; [assumption | lia].
Qed.

(** A run of failed lookups that stays within the budget is retried call
    by call. *)
Lemma paginate_retries msg rest (k : nat) :
  forall p a found,
    (0 <= a)%Z -> (a + Z.of_nat k <= allowedRetries)%Z ->
    let st := {| params := p; nextToken := None; attempts := a; foundLogs := found |} in
    paginate logGroup logStream st
      (repeat (inr (ResourceNotFoundException msg)) k ++ rest)
    = let (o, tr) :=
        paginate logGroup logStream
          {| params := p; nextToken := None;
             attempts := a + Z.of_nat k; foundLogs := found |} rest in
      (o, retryTrace st (ResourceNotFoundException msg) k ++ tr).
Proof.
  unfold allowedRetries.
  induction k as [|k IH]; intros p a found Hpos Hle.
  - cbn [repeat app]. rewrite Z.add_0_r.
    destruct (paginate logGroup logStream _ rest) as [o tr]. reflexivity.
  - cbn [repeat app].
    assert (Hadd : int_add a 1 = (a + 1)%Z).
    { unfold int_add. apply wrap64_small. lia. }
    rewrite paginate_retry
      by (cbn [attempts]; rewrite Hadd; unfold allowedRetries; lia).
    unfold retried. cbn [setNextToken nextToken params attempts foundLogs].
    rewrite Hadd. rewrite (IH p (a + 1)%Z found) by lia.
    replace (a + 1 + Z.of_nat k)%Z with (a + Z.of_nat (S k))%Z by lia.
    destruct (paginate logGroup logStream _ rest) as [o tr].
    unfold retryTrace, callOf.
    cbn [setNextToken nextToken params repeat concat app].
    reflexivity.
Qed.

(** Once the client exists or can be created, [getLogsSince] is the loop
    started from its initial variables. *)
Lemma getLogsSince_loop g c since until backend :
  snd (getLogsSince g (inl c) logGroup logStream since until backend)
  = paginate logGroup logStream (initialLoop logGroup logStream since until) backend.
Proof.
  unfold getLogsSince, getCloudWatchLogsClient.
  destruct (cwl g); reflexivity.
Qed.

(** Every turn starts with its call. *)
Lemma paginate_first_call (st : loopState) resp rest :
  exists o tr,
    paginate logGroup logStream st (resp :: rest) = (o, callOf st resp :: tr).
Proof.
  destruct (paginate_cases st resp rest); rewrite Hrun; eauto.
  - destruct (paginate logGroup logStream (retried st) rest) as [o tr]. eauto.
  - destruct (paginate logGroup logStream (turned st output) rest) as [o tr]. eauto.
Qed.

End LogFacts.

Section LogClaims.
Import awsservice cloudwatchlogs.

(** Claim C3, refuted as stated.  The second page comes without a forward
    token and the loop calls again; the third page returns the very token
    its request carried and the loop still calls again.  Only the fourth
    page, which repeats the token of the page before it, ends the run; the
    fifth scripted answer is never asked for. *)
Lemma pagination_continues_past_absent_token :
  snd (getLogsSince initial (inl sample.cfg) "g" "s" None None
         [sample.page ["a"] (Some "t"); sample.page ["b"] None;
          sample.page ["c"] (Some "t"); sample.page ["d"] (Some "t");
          sample.page ["e"] (Some "t")])
  = (Returned (["a"; "b"; "c"; "d"], None),
     [EvGetLogEvents (sample.request None) (sample.page ["a"] (Some "t"));
      EvGetLogEvents (sample.request (Some "t")) (sample.page ["b"] None);
      EvGetLogEvents (sample.request (Some "t")) (sample.page ["c"] (Some "t"));
      EvGetLogEvents (sample.request (Some "t")) (sample.page ["d"] (Some "t"));
      EvLog "Done paginating log events for %s/%s and found %d logs"
        [ArgString "g"; ArgString "s"; ArgInt 4]]) /\
  getLogEventsCalls
    (snd (snd (getLogsSince initial (inl sample.cfg) "g" "s" None None
                 [sample.page ["a"] (Some "t"); sample.page ["b"] None;
                  sample.page ["c"] (Some "t"); sample.page ["d"] (Some "t");
                  sample.page ["e"] (Some "t")]))) = 4%nat.
Proof. split; reflexivity. Qed.

(** Claim C3, amended.  When the loop holds the token [t] of the previous
    page, its request carries [t]; if the page then returned names [t]
    again, that call is the last one: whatever the backend would answer
    next is never asked for, and the run returns the collected messages
    (or panics on a nil message).  A page without a forward token does not
    end the pagination: the next call is issued with the same request. *)
Theorem pagination_ends_on_repeated_token logGroup logStream
  (st : loopState) (output : GetLogEventsOutput) :
  (forall t (rest : list (reply GetLogEventsOutput)),
      nextToken st = Some t ->
      NextForwardToken output = Some t ->
      NextToken (params (setNextToken st)) = Some t /\
      paginate logGroup logStream st (inl output :: rest)
        = paginate logGroup logStream st [inl output] /\
      fst (paginate logGroup logStream st (inl output :: rest)) <> Pending /\
      getLogEventsCalls (snd (paginate logGroup logStream st (inl output :: rest))) = 1%nat /\
      (Forall (fun e => Message e <> None) (Events output) ->
       fst (paginate logGroup logStream st (inl output :: rest))
       = Returned (foundLogs st ++ eventMessages (Events output), None))) /\
  (forall (resp : reply GetLogEventsOutput) (rest : list (reply GetLogEventsOutput)),
      NextForwardToken output = None ->
      Forall (fun e => Message e <> None) (Events output) ->
      exists o tr,
        paginate logGroup logStream st (inl output :: resp :: rest)
        = (o, callOf st (inl output) :: callOf st resp :: tr)).
Proof.
  split.
  - intros t rest Hnext Hforward.
    split; [apply request_carries_nextToken; exact Hnext|].
    assert (Hsame : sameToken (nextToken st) (NextForwardToken output) = true).
    { rewrite Hnext, Hforward. simpl. apply String.eqb_refl. }
    destruct (messages_dec (Events output)) as [Hok|Hnil].
    + rewrite !(paginate_break logGroup logStream st output) by assumption.
      repeat split; try discriminate; auto.
    + rewrite !(paginate_nil_message logGroup logStream st output) by assumption.
      repeat split; try discriminate; auto.
      intros Hok. exfalso.
      apply Exists_exists in Hnil. destruct Hnil as [e [Hin He]].
      rewrite Forall_forall in Hok. exact (Hok e Hin He).
  - intros resp rest Hforward Hok.
    assert (Hsame : sameToken (nextToken st) (NextForwardToken output) = false).
    { rewrite Hforward. destruct (nextToken st); reflexivity. }
    rewrite (paginate_turn logGroup logStream st output) by assumption.
    destruct (paginate_first_call logGroup logStream (turned st output) resp rest)
      as [o [tr Hrun]].
    exists o, tr. rewrite Hrun. f_equal. f_equal. f_equal.
    unfold callOf, turned, setNextToken. simpl. rewrite Hforward.
    destruct (nextToken st); reflexivity.
Qed.

Lemma pagination_ends_on_repeated_token_witness :
  paginate "g" "s" (sample.midway (Some "t") 1 ["a"])
    [sample.page ["b"] (Some "t"); sample.page ["c"] (Some "u")]
  = paginate "g" "s" (sample.midway (Some "t") 1 ["a"]) [sample.page ["b"] (Some "t")] /\
  exists o tr,
    paginate "g" "s" (sample.midway (Some "t") 1 ["a"])
      [sample.page ["b"] None; sample.page ["c"] (Some "t")]
    = (o, EvGetLogEvents (sample.request (Some "t")) (sample.page ["b"] None)
          :: EvGetLogEvents (sample.request (Some "t")) (sample.page ["c"] (Some "t"))
          :: tr).
Proof.
  split.
  - apply (proj1 (pagination_ends_on_repeated_token "g" "s"
                    (sample.midway (Some "t") 1 ["a"])
                    {| Events := [{| Message := Some "b" |}];
                       NextForwardToken := Some "t" |})
             "t" [sample.page ["c"] (Some "u")] eq_refl eq_refl).
  - apply (proj2 (pagination_ends_on_repeated_token "g" "s"
                    (sample.midway (Some "t") 1 ["a"])
                    {| Events := [{| Message := Some "b" |}];
                       NextForwardToken := None |})
             (sample.page ["c"] (Some "t")) [] eq_refl).
    constructor; [discriminate | constructor].
Defined.

(** Claim C6.  A [GetLogEvents] call that fails with resource-not-found is
    retried after a one-minute sleep while the attempt counter is at most
    [allowedRetries] = 5: five such failures in a row from the start are
    each retried, the sixth ends the run with the error.  Any other error
    ends the run at once with that error, and so does a resource-not-found
    error once the counter has passed 5.  No run sleeps more than five
    times, and every sleep lasts one minute. *)
Theorem getLogsSince_retry_policy g c logGroup logStream since until msg :
  let rnf := ResourceNotFoundException msg in
  let st0 := initialLoop logGroup logStream since until in
  let run := fun backend =>
    snd (getLogsSince g (inl c) logGroup logStream since until backend) in
  (forall (k : nat) (rest : list (reply GetLogEventsOutput)),
      (k <= 5)%nat ->
      run (repeat (inr rnf) k ++ rest)
      = let (o, tr) :=
          paginate logGroup logStream
            {| params := initialParams logGroup logStream since until;
               nextToken := None; attempts := Z.of_nat k; foundLogs := [] |} rest in
        (o, retryTrace st0 rnf k ++ tr)) /\
  (forall rest : list (reply GetLogEventsOutput),
      run (repeat (inr rnf) 6 ++ rest)
      = (Returned ([], Some rnf), retryTrace st0 rnf 5 ++ [callOf st0 (inr rnf)])) /\
  (forall (st : loopState) m (rest : list (reply GetLogEventsOutput)),
      paginate logGroup logStream st (inr (OtherError m) :: rest)
      = (Returned (foundLogs st, Some (OtherError m)),
         [callOf st (inr (OtherError m))])) /\
  (forall (st : loopState) (rest : list (reply GetLogEventsOutput)),
      (allowedRetries < int_add (attempts st) 1)%Z ->
      paginate logGroup logStream st (inr rnf :: rest)
      = (Returned (foundLogs st, Some rnf), [callOf st (inr rnf)])) /\
  (forall backend : list (reply GetLogEventsOutput),
      (Z.of_nat (List.length backend) < 2 ^ 63)%Z ->
      Forall (eq Minute) (sleeps (snd (run backend))) /\
      (List.length (sleeps (snd (run backend))) <= 5)%nat).
Proof.
  intros rnf st0 run. subst run. cbv beta.
  assert (Hfatal : forall (st : loopState) (rest : list (reply GetLogEventsOutput)),
             (allowedRetries < int_add (attempts st) 1)%Z ->
             paginate logGroup logStream st (inr rnf :: rest)
             = (Returned (foundLogs st, Some rnf), [callOf st (inr rnf)])).
  { intros st rest Hgt. apply paginate_error. simpl. apply Z.leb_gt. exact Hgt. }
  assert (Hretries : forall (k : nat) (rest : list (reply GetLogEventsOutput)),
             (k <= 5)%nat ->
             paginate logGroup logStream st0 (repeat (inr rnf) k ++ rest)
             = let (o, tr) :=
                 paginate logGroup logStream
                   {| params := initialParams logGroup logStream since until;
                      nextToken := None; attempts := Z.of_nat k; foundLogs := [] |} rest in
               (o, retryTrace st0 rnf k ++ tr)).
  { intros k rest Hk.
    apply (paginate_retries logGroup logStream msg rest k
             (initialParams logGroup logStream since until) 0%Z []);
      unfold allowedRetries; lia. }
  split; [|split; [|split; [|split]]].
  - intros k rest Hk. rewrite getLogsSince_loop. apply Hretries. exact Hk.
  - intros rest. rewrite getLogsSince_loop.
    change (repeat (inr rnf) 6 ++ rest)
      with (repeat (inr rnf) 5 ++ (@inr GetLogEventsOutput error rnf :: rest)).
    rewrite Hretries by lia.
    rewrite Hfatal by (cbn [attempts]; vm_compute; reflexivity).
    reflexivity.
  - intros st m rest. apply paginate_error. reflexivity.
  - exact Hfatal.
  - intros backend Hlen. rewrite getLogsSince_loop.
    destruct (paginate_sleeps logGroup logStream backend st0) as [Hall Hcount].
    + simpl. lia.
    + simpl. lia.
    + split; [exact Hall|].
      change (attempts st0) with 0%Z in Hcount.
      unfold allowedRetries in Hcount. unfold st0 in Hcount. lia.
Qed.

Lemma getLogsSince_retry_policy_witness :
  snd (getLogsSince initial (inl sample.cfg) "g" "s" None None
         (repeat (inr sample.notFound) 2
          ++ [sample.page ["ready"] (Some "t"); sample.page [] (Some "t")]))
  = (Returned (["ready"], None),
     [EvGetLogEvents (sample.request None) (inr sample.notFound); EvSleep Minute;
      EvGetLogEvents (sample.request None) (inr sample.notFound); EvSleep Minute;
      EvGetLogEvents (sample.request None) (sample.page ["ready"] (Some "t"));
      EvGetLogEvents (sample.request (Some "t")) (sample.page [] (Some "t"));
      EvLog "Done paginating log events for %s/%s and found %d logs"
        [ArgString "g"; ArgString "s"; ArgInt 1]]) /\
  paginate "g" "s" (sample.midway (Some "t") 5 ["a"]) [inr sample.notFound]
  = (Returned (["a"], Some sample.notFound),
     [EvGetLogEvents (sample.request (Some "t")) (inr sample.notFound)]) /\
  (List.length
     (sleeps (snd (snd (getLogsSince initial (inl sample.cfg) "g" "s" None None
                          (repeat (inr sample.notFound) 9))))) <= 5)%nat.
Proof.
  pose proof (getLogsSince_retry_policy initial sample.cfg "g" "s" None None
                "The specified log stream does not exist.") as H.
  cbv zeta in H. destruct H as [Hretry [_ [_ [Hfatal Hbound]]]].
  split; [|split].
  - rewrite (Hretry 2%nat) by lia. reflexivity.
  - apply (Hfatal (sample.midway (Some "t") 5 ["a"]) []). vm_compute. reflexivity.
  - apply (Hbound (repeat (inr sample.notFound) 9)). vm_compute. reflexivity.
Defined.

(** Claim C8.  When the fetch inside [ValidateLogs] succeeds with [found],
    [found] is the list of the messages of all pages received, page after
    page and in the order of each page; the validator is called exactly
    once, on [found], after the last backend call; and [ValidateLogs]
    returns the validator's verdict with a nil error. *)
Theorem ValidateLogs_validates_all_messages g ldc logGroup logStream
  (since : Time) (until : option Time) (validator : list string -> bool)
  (backend : list (reply GetLogEventsOutput)) found tr :
  snd (getLogsSince g ldc logGroup logStream (Some since) until backend)
    = (Returned (found, None), tr) ->
  found = flat_map (fun o => eventMessages (Events o)) (pages tr) /\
  snd (ValidateLogs g ldc logGroup logStream (Some since) until validator backend)
    = (Returned (validator found, None),
       EvLog "Checking %s/%s since %s"
         [ArgString logGroup; ArgString logStream; ArgTime since]
       :: tr ++ [EvValidator found]) /\
  validatorCalls
    (snd (snd (ValidateLogs g ldc logGroup logStream (Some since) until validator backend)))
    = [found].
Proof.
  intros Hfetch.
  assert (Hloop : paginate logGroup logStream
                    (initialLoop logGroup logStream (Some since) until) backend
                  = (Returned (found, None), tr)).
  { unfold getLogsSince in Hfetch.
    destruct (getCloudWatchLogsClient g ldc) as [g' [client|err]];
      simpl in Hfetch; [exact Hfetch | discriminate Hfetch]. }
  assert (Hrun : snd (ValidateLogs g ldc logGroup logStream (Some since) until
                        validator backend)
                 = (Returned (validator found, None),
                    EvLog "Checking %s/%s since %s"
                      [ArgString logGroup; ArgString logStream; ArgTime since]
                    :: tr ++ [EvValidator found])).
  { unfold ValidateLogs.
    destruct (getLogsSince g ldc logGroup logStream (Some since) until backend)
      as [g' fetch].
    simpl in Hfetch. subst fetch. reflexivity. }
  split; [|split].
  - apply paginate_found in Hloop. exact Hloop.
  - exact Hrun.
  - rewrite Hrun. cbn [snd]. unfold validatorCalls.
    cbn [flat_map app]. rewrite flat_map_app.
    pose proof (paginate_no_validator logGroup logStream backend
                  (initialLoop logGroup logStream (Some since) until)) as Hnone.
    rewrite Hloop in Hnone. unfold validatorCalls in Hnone. cbn [snd] in Hnone.
    rewrite Hnone. reflexivity.
Qed.

Lemma ValidateLogs_validates_all_messages_witness :
  snd (ValidateLogs initial (inl sample.cfg) "g" "s" (Some sample.epoch) None
         (fun logs => (2 <? List.length logs)%nat)
         [sample.page ["a"; "b"] (Some "t"); sample.page ["c"] (Some "u");
          sample.page [] (Some "u")])
  = (Returned (true, None),
     EvLog "Checking %s/%s since %s"
       [ArgString "g"; ArgString "s"; ArgTime sample.epoch]
     :: snd (snd (getLogsSince initial (inl sample.cfg) "g" "s" (Some sample.epoch) None
                    [sample.page ["a"; "b"] (Some "t"); sample.page ["c"] (Some "u");
                     sample.page [] (Some "u")]))
     ++ [EvValidator ["a"; "b"; "c"]]).
Proof.
  apply (proj1 (proj2 (ValidateLogs_validates_all_messages
                         initial (inl sample.cfg) "g" "s" sample.epoch None
                         (fun logs => (2 <? List.length logs)%nat)
                         [sample.page ["a"; "b"] (Some "t"); sample.page ["c"] (Some "u");
                          sample.page [] (Some "u")]
                         ["a"; "b"; "c"] _ eq_refl))).
Defined.

(** [IsLogGroupExists] answers by the size of the listing alone; it does not
    look at the names in it. *)
Lemma IsLogGroupExists_listing g ldc g' handles describe name out :
  getCloudWatchLogsClient g ldc = (g', inl handles) ->
  describe {| LogGroupNamePrefix := Some name |} = inl out ->
  fst (snd (IsLogGroupExists g ldc describe name))
  = Returned (0 <? List.length (LogGroups out))%nat.
Proof.
  intros Hclient Hdescribe. unfold IsLogGroupExists.
  rewrite Hclient. simpl. rewrite Hdescribe. reflexivity.
Qed.

(** Claim C10.  [IsLogGroupExists name] asks for the groups with prefix
    [name] and returns true as soon as the listing holds a group whose name
    starts with [name], equal to it or not; it returns false when the
    client cannot be created and when [DescribeLogGroups] fails. *)
Theorem IsLogGroupExists_prefix_match g ldc describe name :
  (forall g' handles out grp n,
      getCloudWatchLogsClient g ldc = (g', inl handles) ->
      describe {| LogGroupNamePrefix := Some name |} = inl out ->
      In grp (LogGroups out) ->
      GroupName grp = Some n ->
      String.prefix name n = true ->
      fst (snd (IsLogGroupExists g ldc describe name)) = Returned true) /\
  (forall g' err,
      getCloudWatchLogsClient g ldc = (g', inr err) ->
      fst (snd (IsLogGroupExists g ldc describe name)) = Returned false) /\
  (forall g' handles err,
      getCloudWatchLogsClient g ldc = (g', inl handles) ->
      describe {| LogGroupNamePrefix := Some name |} = inr err ->
      fst (snd (IsLogGroupExists g ldc describe name)) = Returned false).
Proof.
  split; [|split].
  - intros g' handles out grp n Hclient Hdescribe Hin _ _.
    unfold IsLogGroupExists. rewrite Hclient. simpl. rewrite Hdescribe. simpl.
    destruct (LogGroups out) as [|g0 groups]; [contradiction Hin | reflexivity].
  - intros g' err Hclient.
    unfold IsLogGroupExists. rewrite Hclient. reflexivity.
  - intros g' handles err Hclient Hdescribe.
    unfold IsLogGroupExists. rewrite Hclient. simpl. rewrite Hdescribe. reflexivity.
Qed.

Lemma IsLogGroupExists_prefix_match_witness :
  fst (snd (IsLogGroupExists initial (inl sample.cfg)
              (sample.listing ["foobar"; "baz"]) "foo")) = Returned true /\
  fst (snd (IsLogGroupExists initial (inr sample.denied)
              (sample.listing ["foobar"; "baz"]) "foo")) = Returned false /\
  fst (snd (IsLogGroupExists initial (inl sample.cfg) sample.unreachable "foo"))
    = Returned false.
Proof.
  split; [|split].
  - eapply (proj1 (IsLogGroupExists_prefix_match initial (inl sample.cfg)
                     (sample.listing ["foobar"; "baz"]) "foo")
              _ _ _ {| GroupName := Some "foobar" |} "foobar").
    + reflexivity.
    + reflexivity.
    + left. reflexivity.
    + reflexivity.
    + reflexivity.
  - eapply (proj1 (proj2 (IsLogGroupExists_prefix_match initial (inr sample.denied)
                            (sample.listing ["foobar"; "baz"]) "foo"))).
    reflexivity.
  - eapply (proj2 (proj2 (IsLogGroupExists_prefix_match initial (inl sample.cfg)
                            sample.unreachable "foo"))).
    + reflexivity.
    + reflexivity.
Defined.

End LogClaims.

(* ================================================================== *)
(** * Further properties of package [dimension]                         *)
(* ================================================================== *)

Section MonadFacts.

Lemma bind_assoc {A B C} (c : M A) (k : A -> M B) (h : B -> M C) :
  bind (bind c k) h = bind c (fun a => bind (k a) h).
Proof.
  destruct c as [[a| |] tr]; simpl; try reflexivity.
  destruct (k a) as [[b| |] tr1]; simpl; try reflexivity.
  destruct (h b) as [o tr2]. rewrite app_assoc. reflexivity.
Qed.

Lemma bind_ret_l {A B} (a : A) (k : A -> M B) : bind (ret a) k = k a.
Proof. unfold bind, ret. destruct (k a). reflexivity. Qed.

End MonadFacts.

Section DimensionMore.
Import dimension.

(** Property X1.  The factory's answer is the empty dimension exactly when every provider
    declines; any other answer is the answer of one of its providers. *)
Theorem executeInstruction_zero_iff (f : Factory) (ins : Instruction) :
  (executeInstruction f ins = types.zero <->
   Forall (fun q => GetDimension q ins = types.zero) (providers f)) /\
  (executeInstruction f ins <> types.zero ->
   exists p, In p (providers f) /\ GetDimension p ins = executeInstruction f ins).
Proof.
  unfold executeInstruction. induction (providers f) as [|p ps [IHiff IHin]]; simpl.
  - split; [split; [constructor | reflexivity] | congruence].
  - destruct (types.isZero (GetDimension p ins)) eqn:Hz; simpl.
    + apply isZero_true in Hz. split.
      * rewrite IHiff. split; intros H.
        -- constructor; assumption.
        -- inversion H; assumption.
      * intros Hne. destruct (IHin Hne) as [q [Hq Heq]]. exists q. auto.
    + apply isZero_false in Hz. split.
      * split; intros H; [contradiction | inversion H; contradiction].
      * intros _. exists p. auto.
Qed.

Lemma executeInstruction_zero_iff_witness :
  exists p,
    In p (providers sample.hostOnly) /\
    GetDimension p sample.unknownInstanceId
    = executeInstruction sample.hostOnly sample.unknownInstanceId.
Proof.
  apply (proj2 (executeInstruction_zero_iff sample.hostOnly sample.unknownInstanceId)).
  discriminate.
Defined.

(** Property X2.  Providers that are not applicable play no part: two provider lists that
    agree on applicability, and on the answers of the applicable providers,
    build factories that answer alike. *)
Theorem GetDimensionFactory_ignores_inapplicable
  (all all' : list IProvider) (ins : Instruction) :
  Forall2 (fun p q => IsApplicable p = IsApplicable q /\
                      (IsApplicable p = true -> GetDimension p ins = GetDimension q ins))
    all all' ->
  executeInstruction (GetDimensionFactory all) ins
  = executeInstruction (GetDimensionFactory all') ins.
Proof.
  unfold executeInstruction, GetDimensionFactory. simpl.
  induction 1 as [|p q ps qs [Happ Hdim] _ IH]; simpl; [reflexivity|].
  rewrite <- Happ. destruct (IsApplicable p) eqn:Hp; simpl; [|exact IH].
  rewrite <- (Hdim eq_refl), IH. reflexivity.
Qed.

Lemma GetDimensionFactory_ignores_inapplicable_witness :
  executeInstruction
    (GetDimensionFactory [sample.inapplicable (sample.instanceIdProvider "i-0abc");
                          sample.literalProvider]) sample.literalInstanceId
  = executeInstruction
      (GetDimensionFactory [sample.inapplicable sample.namelessProvider;
                            sample.literalProvider]) sample.literalInstanceId.
Proof.
  apply GetDimensionFactory_ignores_inapplicable.
  constructor; [split; [reflexivity | discriminate]|].
  constructor; [split; reflexivity | constructor].
Defined.

Lemma GetDimensions_range_full (f : Factory) (instructions : list Instruction) :
  Forall (fun i => full (executeInstruction f i)) instructions ->
  forall resolved unfulfilled,
    GetDimensions_range f instructions resolved unfulfilled
    = (Returned (resolved ++ map (executeInstruction f) instructions, unfulfilled),
       resolvedLog f instructions).
Proof.
  induction 1 as [|i rest [n [v Hi]] _ IH]; intros resolved unfulfilled; simpl.
  - rewrite app_nil_r. reflexivity.
  - unfold resolvedLog. simpl. rewrite Hi. simpl.
    rewrite IH, <- app_assoc. reflexivity.
Qed.

Lemma GetDimensions_range_partial (f : Factory) (instructions : list Instruction) :
  Exists (fun i => types.Name (executeInstruction f i) = None \/
                   types.Value (executeInstruction f i) = None) instructions ->
  forall resolved unfulfilled,
    fst (GetDimensions_range f instructions resolved unfulfilled) = Panicked.
Proof.
  induction instructions as [|i rest IH]; intros Hex resolved unfulfilled.
  - inversion Hex.
  - simpl. destruct (types.isZero (executeInstruction f i)) eqn:Hz; simpl.
    + apply isZero_true in Hz. rewrite Hz. reflexivity.
    + destruct (types.Name (executeInstruction f i)) as [n|] eqn:Hn; [|reflexivity].
      destruct (types.Value (executeInstruction f i)) as [v|] eqn:Hv; [|reflexivity].
      simpl.
      assert (Hrest : Exists (fun i => types.Name (executeInstruction f i) = None \/
                                       types.Value (executeInstruction f i) = None) rest).
      { inversion Hex as [? ? [H|H]|]; subst; congruence || assumption. }
      specialize (IH Hrest (resolved ++ [executeInstruction f i]) unfulfilled).
      destruct (GetDimensions_range f rest _ unfulfilled) as [o tr].
      simpl in *. subst o. reflexivity.
Qed.

(** Property X3.  [GetDimensions] returns exactly when every instruction resolves to a
    dimension with both name and value set: it then yields those dimensions
    in input order, an empty unfulfilled list, and one "Result dim" log line
    per instruction.  A dimension lacking its name or its value, the empty
    one included, makes it panic. *)
Theorem GetDimensions_returns_or_panics (f : Factory) (instructions : list Instruction) :
  (Forall (fun i => full (executeInstruction f i)) instructions ->
   GetDimensions f instructions
   = (Returned (map (executeInstruction f) instructions, []),
      resolvedLog f instructions)) /\
  (Exists (fun i => types.Name (executeInstruction f i) = None \/
                    types.Value (executeInstruction f i) = None) instructions ->
   fst (GetDimensions f instructions) = Panicked).
Proof.
  unfold GetDimensions. split.
  - intros H. rewrite (GetDimensions_range_full f instructions H). reflexivity.
  - intros H. apply GetDimensions_range_partial. exact H.
Qed.

Lemma GetDimensions_returns_or_panics_witness :
  GetDimensions sample.hostOnly [sample.unknownInstanceId; sample.literalInstanceId]
  = (Returned ([{| types.Name := Some "InstanceId"; types.Value := Some "i-0abc" |};
                {| types.Name := Some "InstanceId"; types.Value := Some "i-0abc" |}], []),
     [EvLog "Result dim is : %s, %s" [ArgString "InstanceId"; ArgString "i-0abc"];
      EvLog "Result dim is : %s, %s" [ArgString "InstanceId"; ArgString "i-0abc"]]) /\
  fst (GetDimensions {| providers := [sample.namelessProvider] |}
         [sample.unknownInstanceId]) = Panicked.
Proof.
  split.
  - apply (proj1 (GetDimensions_returns_or_panics sample.hostOnly
                    [sample.unknownInstanceId; sample.literalInstanceId])).
    repeat constructor; exists "InstanceId", "i-0abc"; reflexivity.
  - apply (proj2 (GetDimensions_returns_or_panics
                    {| providers := [sample.namelessProvider] |}
                    [sample.unknownInstanceId])).
    apply Exists_cons_hd. left. reflexivity.
Defined.

Lemma GetDimensions_returned_shape
  (f : Factory) (instructions : list Instruction) dims failed tr :
  GetDimensions f instructions = (Returned (dims, failed), tr) ->
  failed = [] /\ dims = map (executeInstruction f) instructions.
Proof.
  intros Hrun.
  destruct (GetDimensions_range_returned f instructions [] [] dims failed tr Hrun)
    as [Hdims Hfailed].
  simpl in Hdims. auto.
Qed.

(** Property X4.  Whenever [GetDimensions] returns, its second result is empty and its
    first holds one dimension per instruction: a caller never sees a
    non-empty unfulfilled list. *)
Theorem GetDimensions_never_returns_unfulfilled
  (f : Factory) (instructions : list Instruction) dims failed tr :
  GetDimensions f instructions = (Returned (dims, failed), tr) ->
  failed = [] /\
  dims = map (executeInstruction f) instructions /\
  List.length dims = List.length instructions /\
  Forall (fun d => types.isZero d = false) dims.
Proof.
  intros Hrun.
  destruct (GetDimensions_range_returned f instructions [] [] dims failed tr Hrun)
    as [Hdims Hfailed].
  simpl in Hdims. subst dims failed.
  split; [reflexivity|]. split; [reflexivity|].
  split; [apply length_map|].
  apply Forall_forall. intros d Hd. apply in_map_iff in Hd.
  destruct Hd as [i [Hi Hin]]. subst d.
  destruct (types.isZero (executeInstruction f i)) eqn:Hz; [|reflexivity].
  exfalso. apply isZero_true in Hz.
  assert (Hp : fst (GetDimensions f instructions) = Panicked).
  { apply GetDimensions_range_unfulfilled. apply Exists_exists. eauto. }
  rewrite Hrun in Hp. discriminate Hp.
Qed.

Lemma GetDimensions_never_returns_unfulfilled_witness :
  @nil Instruction = [] /\
  [{| types.Name := Some "InstanceId"; types.Value := Some "i-0abc" |}]
  = map (executeInstruction sample.hostOnly) [sample.unknownInstanceId] /\
  List.length [{| types.Name := Some "InstanceId"; types.Value := Some "i-0abc" |}]
  = List.length [sample.unknownInstanceId] /\
  Forall (fun d => types.isZero d = false)
    [{| types.Name := Some "InstanceId"; types.Value := Some "i-0abc" |}].
Proof.
  apply (GetDimensions_never_returns_unfulfilled sample.hostOnly
           [sample.unknownInstanceId] _ [] _ eq_refl).
Defined.

Lemma GetDimensions_range_app (f : Factory) (first second : list Instruction) :
  forall resolved unfulfilled,
    GetDimensions_range f (first ++ second) resolved unfulfilled
    = bind (GetDimensions_range f first resolved unfulfilled)
        (fun r => GetDimensions_range f second (fst r) (snd r)).
Proof.
  induction first as [|i rest IH]; intros resolved unfulfilled.
  - cbn [app GetDimensions_range]. rewrite bind_ret_l. reflexivity.
  - cbn [app GetDimensions_range].
    destruct (negb (types.isZero (executeInstruction f i)));
      destruct (types.Name (executeInstruction f i)) as [n|];
      destruct (types.Value (executeInstruction f i)) as [v|];
      cbn [deref]; rewrite ?bind_ret_l; try reflexivity;
      rewrite IH; unfold log_Printf, emit, bind;
      destruct (GetDimensions_range f rest _ _) as [[r| |] tr]; try reflexivity;
      destruct (GetDimensions_range f second (fst r) (snd r)) as [o tr'];
      reflexivity.
Qed.

(** What the loop has collected so far is only ever extended. *)
Lemma GetDimensions_range_acc (f : Factory) (instructions : list Instruction) :
  forall resolved unfulfilled,
    GetDimensions_range f instructions resolved unfulfilled
    = bind (GetDimensions_range f instructions [] [])
        (fun r => ret (resolved ++ fst r, unfulfilled ++ snd r)).
Proof.
  induction instructions as [|i rest IH]; intros resolved unfulfilled.
  - cbn [GetDimensions_range]. rewrite bind_ret_l. simpl.
    rewrite !app_nil_r. reflexivity.
  - cbn [GetDimensions_range].
    destruct (negb (types.isZero (executeInstruction f i)));
      destruct (types.Name (executeInstruction f i)) as [n|];
      destruct (types.Value (executeInstruction f i)) as [v|];
      cbn [deref]; rewrite ?bind_ret_l; try reflexivity;
      rewrite IH; symmetry; rewrite IH; symmetry;
      unfold log_Printf, emit, bind, ret;
      destruct (GetDimensions_range f rest [] []) as [[r| |] tr]; try reflexivity;
      cbn [fst snd app]; rewrite <- !app_assoc, !app_nil_r; reflexivity.
Qed.

(** Property X5.  Resolving a concatenated list is resolving its two parts one after the
    other and concatenating what they return; a panic in either part is a
    panic of the whole, after the log lines written until then. *)
Theorem GetDimensions_app (f : Factory) (first second : list Instruction) :
  GetDimensions f (first ++ second)
  = bind (GetDimensions f first) (fun a =>
      bind (GetDimensions f second) (fun b =>
        ret (fst a ++ fst b, snd a ++ snd b))).
Proof.
  unfold GetDimensions. rewrite GetDimensions_range_app.
  destruct (GetDimensions_range f first [] []) as [[a| |] tr]; try reflexivity.
  cbn [bind]. rewrite (GetDimensions_range_acc f second (fst a) (snd a)).
  reflexivity.
Qed.

End DimensionMore.

(* ================================================================== *)
(** * Further properties of the Swap and Mem runners                    *)
(* ================================================================== *)

Section RunnerMore.
Import dimension metric_value_benchmark status.

Variable namespace : string.
Variable remote : string -> string -> list types.Dimension -> metric.Statistic ->
  list float64 * option error.

(** [GetDimensions] only writes log lines. *)
Lemma GetDimensions_range_no_fetch (f : Factory) (instructions : list Instruction) :
  forall resolved unfulfilled,
    fetches (snd (GetDimensions_range f instructions resolved unfulfilled)) = [].
Proof.
  induction instructions as [|i rest IH]; intros resolved unfulfilled.
  - reflexivity.
  - cbn [GetDimensions_range].
    destruct (negb (types.isZero (executeInstruction f i)));
      destruct (types.Name (executeInstruction f i)) as [n|];
      destruct (types.Value (executeInstruction f i)) as [v|];
      cbn [deref]; rewrite ?bind_ret_l; try reflexivity;
      unfold log_Printf, emit, bind;
      match goal with
      | |- context [GetDimensions_range f rest ?r ?u] =>
          specialize (IH r u); destruct (GetDimensions_range f rest r u) as [o tr]
      end; exact IH.
Qed.

(** What either runner does, start to end, once [InstanceId] resolves. *)
Lemma validateSwapMetric_run (f : Factory) metricName dims tr :
  GetDimensions f [instanceIdInstruction] = (Returned (dims, []), tr) ->
  validateSwapMetric namespace remote (sample.swapRunner f) metricName
  = (Returned (verdictOf namespace remote dims metricName),
     tr ++ [EvFetch namespace metricName dims metric.AVERAGE;
            EvLog "metric values are %v"
              [ArgFloats (fst (remote namespace metricName dims metric.AVERAGE))]]).
Proof.
  intros Hdims. unfold validateSwapMetric, verdictOf. simpl. rewrite Hdims. simpl.
  destruct (remote namespace metricName dims metric.AVERAGE) as [values [err|]]; simpl.
  - reflexivity.
  - destruct (isAllValuesGreaterThanOrEqualToZero metricName values); reflexivity.
Qed.

Lemma validateMemMetric_run (f : Factory) metricName dims tr :
  GetDimensions f [instanceIdInstruction] = (Returned (dims, []), tr) ->
  validateMemMetric namespace remote (sample.memRunner f) metricName
  = (Returned (verdictOf namespace remote dims metricName),
     tr ++ [EvFetch namespace metricName dims metric.AVERAGE]).
Proof.
  intros Hdims. unfold validateMemMetric, verdictOf. simpl. rewrite Hdims. simpl.
  destruct (remote namespace metricName dims metric.AVERAGE) as [values [err|]]; simpl.
  - reflexivity.
  - destruct (isAllValuesGreaterThanOrEqualToZero metricName values); reflexivity.
Qed.

Lemma fetches_after_GetDimensions (f : Factory) instructions r tr rest :
  GetDimensions f instructions = (r, tr) ->
  fetches (tr ++ rest) = fetches rest.
Proof.
  intros H. unfold fetches. rewrite filter_app.
  pose proof (GetDimensions_range_no_fetch f instructions [] []) as Hnone.
  unfold GetDimensions in H. rewrite H in Hnone. unfold fetches in Hnone.
  simpl in Hnone. rewrite Hnone. reflexivity.
Qed.

(** Property X6.  A fetch that returns an error fails the metric, whatever values come
    with it. *)
Theorem fetch_error_fails_metric (f : Factory) metricName dims values err tr :
  GetDimensions f [instanceIdInstruction] = (Returned (dims, []), tr) ->
  remote namespace metricName dims metric.AVERAGE = (values, Some err) ->
  fst (validateSwapMetric namespace remote (sample.swapRunner f) metricName)
    = Returned {| Name := metricName; Status := FAILED |} /\
  fst (validateMemMetric namespace remote (sample.memRunner f) metricName)
    = Returned {| Name := metricName; Status := FAILED |}.
Proof.
  intros Hdims Hremote.
  rewrite (validateSwapMetric_run f metricName dims tr Hdims).
  rewrite (validateMemMetric_run f metricName dims tr Hdims).
  unfold verdictOf. rewrite Hremote. split; reflexivity.
Qed.


(** Property X8.  Every result a runner returns carries the metric's name and was reached
    after exactly one fetch, made with the runner's namespace, the metric
    name, the resolved [InstanceId] dimension and the average statistic:
    the early return on unfulfilled instructions is never taken. *)
Theorem returned_result_follows_one_fetch (f : Factory) metricName :
  let swap := validateSwapMetric namespace remote (sample.swapRunner f) metricName in
  let mem := validateMemMetric namespace remote (sample.memRunner f) metricName in
  let query := EvFetch namespace metricName
                 [executeInstruction f instanceIdInstruction] metric.AVERAGE in
  (forall r, fst swap = Returned r -> Name r = metricName /\ fetches (snd swap) = [query]) /\
  (forall r, fst mem = Returned r -> Name r = metricName /\ fetches (snd mem) = [query]).
Proof.
  intros swap mem query. subst swap mem query.
  destruct (GetDimensions f [instanceIdInstruction]) as [[[dims failed]| |] tr] eqn:Hd.
  - destruct (GetDimensions_returned_shape f _ dims failed tr Hd) as [-> Hdims].
    rewrite (validateSwapMetric_run f metricName dims tr Hd).
    rewrite (validateMemMetric_run f metricName dims tr Hd).
    cbn [fst snd]. rewrite !(fetches_after_GetDimensions f _ _ tr _ Hd).
    simpl in Hdims. subst dims.
    split; intros r Hr; inversion Hr; split; reflexivity.
  - unfold validateSwapMetric, validateMemMetric. simpl. rewrite Hd.
    split; intros r Hr; discriminate Hr.
  - unfold validateSwapMetric, validateMemMetric. simpl. rewrite Hd.
    split; intros r Hr; discriminate Hr.
Qed.

(** ** The group result *)





End RunnerMore.

Lemma fetch_error_fails_metric_witness :
  fst (metric_value_benchmark.validateSwapMetric "MetricValueBenchmarkTest"
         sample.failingRemote (sample.swapRunner sample.hostOnly) "swap_free")
  = Returned {| status.Name := "swap_free"; status.Status := status.FAILED |} /\
  fst (metric_value_benchmark.validateMemMetric "MetricValueBenchmarkTest"
         sample.failingRemote (sample.memRunner sample.hostOnly) "swap_free")
  = Returned {| status.Name := "swap_free"; status.Status := status.FAILED |}.
Proof.
  apply (fetch_error_fails_metric "MetricValueBenchmarkTest" sample.failingRemote
           sample.hostOnly "swap_free"
           [{| types.Name := Some "InstanceId"; types.Value := Some "i-0abc" |}]
           [] sample.denied
           [EvLog "Result dim is : %s, %s" [ArgString "InstanceId"; ArgString "i-0abc"]]
           eq_refl eq_refl).
Defined.

Lemma returned_result_follows_one_fetch_witness :
  metric_value_benchmark.fetches
    (snd (metric_value_benchmark.validateSwapMetric "MetricValueBenchmarkTest"
            (sample.steadyRemote [Finite 3 0]) (sample.swapRunner sample.hostOnly)
            "swap_used"))
  = [EvFetch "MetricValueBenchmarkTest" "swap_used"
       [{| types.Name := Some "InstanceId"; types.Value := Some "i-0abc" |}]
       metric.AVERAGE].
Proof.
  pose proof (returned_result_follows_one_fetch "MetricValueBenchmarkTest"
                (sample.steadyRemote [Finite 3 0]) sample.hostOnly "swap_used") as H.
  cbv zeta in H.
  exact (proj2 (proj1 H {| status.Name := "swap_used";
                           status.Status := status.SUCCESSFUL |} eq_refl)).
Defined.



(* ================================================================== *)
(** * Further properties of package [awsservice]                        *)
(* ================================================================== *)

Section ClientFacts.
Import awsservice cloudwatchlogs.

(** Property X11.  Once the client has been handed out, every later call hands out the
    same client and context, changes nothing, and does not depend on what
    loading the configuration would give. *)
Theorem getCloudWatchLogsClient_singleton g ldc g' handles :
  getCloudWatchLogsClient g ldc = (g', inl handles) ->
  cwl g' <> None /\
  forall ldc', getCloudWatchLogsClient g' ldc' = (g', inl handles).
Proof.
  unfold getCloudWatchLogsClient.
  destruct (cwl g) as [c|] eqn:Hc.
  - intros H. inversion H; subst. rewrite Hc. split; [discriminate|].
    intros ldc'. reflexivity.
  - destruct ldc as [c|err]; intros H; inversion H; subst; simpl.
    split; [discriminate|]. intros ldc'. reflexivity.
Qed.

Lemma getCloudWatchLogsClient_singleton_witness :
  getCloudWatchLogsClient
    {| ctx := Some Background; cwl := Some {| NewFromConfig := sample.cfg |} |}
    (inr sample.denied)
  = ({| ctx := Some Background; cwl := Some {| NewFromConfig := sample.cfg |} |},
     inl (Some {| NewFromConfig := sample.cfg |}, Some Background)).
Proof.
  apply (proj2 (getCloudWatchLogsClient_singleton initial (inl sample.cfg) _ _ eq_refl)).
Defined.

(** Property X12.  A failed creation leaves no client behind, so the next call loads the
    configuration again and can succeed. *)
Theorem getCloudWatchLogsClient_failure_is_not_cached g ldc g' err :
  getCloudWatchLogsClient g ldc = (g', inr err) ->
  ldc = inr err /\ cwl g = None /\ cwl g' = None /\ ctx g' = Some Background /\
  forall c,
    getCloudWatchLogsClient g' (inl c)
    = ({| ctx := Some Background; cwl := Some {| NewFromConfig := c |} |},
       inl (Some {| NewFromConfig := c |}, Some Background)).
Proof.
  unfold getCloudWatchLogsClient.
  destruct (cwl g) as [c|] eqn:Hc; [discriminate|].
  destruct ldc as [c|e]; intros H; inversion H; subst; simpl.
  repeat split; reflexivity.
Qed.

Lemma getCloudWatchLogsClient_failure_is_not_cached_witness :
  getCloudWatchLogsClient {| ctx := Some Background; cwl := None |} (inl sample.cfg)
  = ({| ctx := Some Background; cwl := Some {| NewFromConfig := sample.cfg |} |},
     inl (Some {| NewFromConfig := sample.cfg |}, Some Background)).
Proof.
  apply (proj2 (proj2 (proj2 (proj2
           (getCloudWatchLogsClient_failure_is_not_cached
              initial (inr sample.denied) _ sample.denied eq_refl))))).
Defined.

(** The same fact, for use in other proofs. *)
Lemma getCloudWatchLogsClient_singleton_again g ldc g' handles :
  getCloudWatchLogsClient g ldc = (g', inl handles) ->
  forall ldc', getCloudWatchLogsClient g' ldc' = (g', inl handles).
Proof.
  unfold getCloudWatchLogsClient.
  destruct (cwl g) as [c|] eqn:Hc.
  - intros H. inversion H; subst. rewrite Hc. reflexivity.
  - destruct ldc as [c|err]; intros H; inversion H; subst; reflexivity.
Qed.

End ClientFacts.

Section LogMore.
Import awsservice cloudwatchlogs.

Variables logGroup logStream : string.

(** The logs a run returns, with or without an error, are the messages of
    the pages it received. *)
Lemma paginate_found_any (backend : list (reply GetLogEventsOutput)) :
  forall st found err tr,
    paginate logGroup logStream st backend = (Returned (found, err), tr) ->
    found = foundLogs st ++ flat_map (fun o => eventMessages (Events o)) (pages tr).
Proof.
  induction backend as [|resp rest IH]; intros st found err tr Hrun.
  - discriminate Hrun.
  - destruct (paginate_cases logGroup logStream st resp rest);
      rewrite Hrun0 in Hrun; subst resp.
    + destruct (paginate logGroup logStream (retried st) rest) as [o tr'] eqn:Hrec.
      inversion Hrun; subst. apply IH in Hrec. exact Hrec.
    + inversion Hrun; subst. simpl. rewrite app_nil_r. reflexivity.
    + discriminate Hrun.
    + inversion Hrun; subst. simpl. rewrite app_nil_r. reflexivity.
    + destruct (paginate logGroup logStream (turned st output) rest) as [o tr'] eqn:Hrec.
      inversion Hrun; subst. apply IH in Hrec. rewrite Hrec. simpl.
      rewrite app_assoc. reflexivity.
Qed.

Lemma queryOf_setNextToken (st : loopState) :
  queryOf (params (setNextToken st)) = queryOf (params st).
Proof. unfold setNextToken. destruct (nextToken st); reflexivity. Qed.

Lemma paginate_requests (backend : list (reply GetLogEventsOutput)) :
  forall st,
    Forall (fun p => queryOf p = queryOf (params st))
      (requests (snd (paginate logGroup logStream st backend))).
Proof.
  induction backend as [|resp rest IH]; intros st.
  - constructor.
  - destruct (paginate_cases logGroup logStream st resp rest); rewrite Hrun;
      unfold callOf.
    + specialize (IH (retried st)).
      destruct (paginate logGroup logStream (retried st) rest) as [o tr'].
      cbn [snd requests flat_map app] in *.
      constructor; [apply queryOf_setNextToken|].
      cbn [retried params] in IH. rewrite queryOf_setNextToken in IH. exact IH.
    + cbn [snd requests flat_map app].
      constructor; [apply queryOf_setNextToken | constructor].
    + cbn [snd requests flat_map app].
      constructor; [apply queryOf_setNextToken | constructor].
    + cbn [snd requests flat_map app].
      constructor; [apply queryOf_setNextToken | constructor].
    + specialize (IH (turned st output)).
      destruct (paginate logGroup logStream (turned st output) rest) as [o tr'].
      cbn [snd requests flat_map app] in *.
      constructor; [apply queryOf_setNextToken|].
      cbn [turned params] in IH. rewrite queryOf_setNextToken in IH. exact IH.
Qed.

(** The attempt counter plays no part while the backend answers with pages. *)
Lemma paginate_pages_ignore_attempts (backend : list (reply GetLogEventsOutput)) :
  Forall (fun r => isPage r = true) backend ->
  forall p token a a' found,
    paginate logGroup logStream
      {| params := p; nextToken := token; attempts := a; foundLogs := found |} backend
    = paginate logGroup logStream
        {| params := p; nextToken := token; attempts := a'; foundLogs := found |} backend.
Proof.
  induction 1 as [|resp rest Hpage _ IH]; intros p token a a' found.
  - reflexivity.
  - destruct resp as [output|err]; [|discriminate Hpage].
    destruct (messages_dec (Events output)) as [Hok|Hnil].
    + destruct (sameToken token (NextForwardToken output)) eqn:Hsame.
      * rewrite !paginate_break by assumption.
        unfold callOf, setNextToken. destruct token; reflexivity.
      * rewrite !paginate_turn by assumption.
        unfold turned, callOf, setNextToken. cbn [params nextToken attempts foundLogs].
        destruct token as [t|]; cbn [params];
          rewrite (IH _ _ (int_add a 1) (int_add a' 1) _); reflexivity.
    + rewrite !paginate_nil_message by assumption.
      unfold callOf, setNextToken. destruct token; reflexivity.
Qed.

End LogMore.

Section LogMoreClaims.
Import awsservice cloudwatchlogs.

(** Property X13.  Every request of a run names the same group and stream, reads from the
    head, and carries the millisecond readings of [since] and [until] (or
    none where the bound is nil); the first request carries no token. *)
Theorem requests_share_query g c logGroup logStream since until
  (backend : list (reply GetLogEventsOutput)) :
  let tr := snd (snd (getLogsSince g (inl c) logGroup logStream since until backend)) in
  Forall (sameQuery logGroup logStream since until) (requests tr) /\
  (backend <> [] ->
   exists p rest, requests tr = p :: rest /\ NextToken p = None).
Proof.
  intros tr. subst tr. rewrite getLogsSince_loop. split.
  - pose proof (paginate_requests logGroup logStream backend
                  (initialLoop logGroup logStream since until)) as H.
    eapply Forall_impl; [|exact H].
    intros p Hp. unfold queryOf in Hp. simpl in Hp. inversion Hp.
    unfold sameQuery. auto.
  - intros Hne. destruct backend as [|resp rest]; [congruence|].
    destruct (paginate_first_call logGroup logStream
                (initialLoop logGroup logStream since until) resp rest)
      as [o [tr Hrun]].
    rewrite Hrun. unfold callOf. simpl. eauto.
Qed.

Lemma requests_share_query_witness :
  exists p rest,
    requests (snd (snd (getLogsSince initial (inl sample.cfg) "g" "s"
                          (Some sample.epoch) None
                          [sample.page ["a"] (Some "t"); sample.page [] (Some "t")])))
    = p :: rest /\ NextToken p = None.
Proof.
  apply (proj2 (requests_share_query initial sample.cfg "g" "s" (Some sample.epoch) None
                  [sample.page ["a"] (Some "t"); sample.page [] (Some "t")])).
  discriminate.
Defined.

(** Property X14.  When [getLogsSince] gives up on an error it still returns the messages
    of the pages received until then; [ValidateLogs] drops them, answers
    false with that error, and does not call the validator. *)
Theorem fetch_error_skips_validator g ldc logGroup logStream
  (since : Time) (until : option Time) (validator : list string -> bool)
  (backend : list (reply GetLogEventsOutput)) found err tr :
  snd (getLogsSince g ldc logGroup logStream (Some since) until backend)
    = (Returned (found, Some err), tr) ->
  found = flat_map (fun o => eventMessages (Events o)) (pages tr) /\
  fst (snd (ValidateLogs g ldc logGroup logStream (Some since) until validator backend))
    = Returned (false, Some err) /\
  validatorCalls
    (snd (snd (ValidateLogs g ldc logGroup logStream (Some since) until validator backend)))
    = [].
Proof.
  intros Hfetch.
  assert (Hrun : snd (ValidateLogs g ldc logGroup logStream (Some since) until
                        validator backend)
                 = (Returned (false, Some err),
                    EvLog "Checking %s/%s since %s"
                      [ArgString logGroup; ArgString logStream; ArgTime since]
                    :: tr ++ [])).
  { unfold ValidateLogs.
    destruct (getLogsSince g ldc logGroup logStream (Some since) until backend)
      as [g' fetch].
    simpl in Hfetch. subst fetch. reflexivity. }
  rewrite Hrun. cbn [fst snd]. rewrite app_nil_r.
  unfold getLogsSince in Hfetch.
  destruct (getCloudWatchLogsClient g ldc) as [g' [handles|e]]; simpl in Hfetch.
  - split; [|split; [reflexivity|]].
    + apply (paginate_found_any logGroup logStream) in Hfetch. exact Hfetch.
    + pose proof (paginate_no_validator logGroup logStream backend
                    (initialLoop logGroup logStream (Some since) until)) as Hnone.
      rewrite Hfetch in Hnone. exact Hnone.
  - inversion Hfetch; subst. repeat split.
Qed.

Lemma fetch_error_skips_validator_witness :
  ["a"; "b"]
  = flat_map (fun o => eventMessages (Events o))
      (pages [EvGetLogEvents (sample.request None) (sample.page ["a"; "b"] (Some "t"));
              EvGetLogEvents (sample.request (Some "t")) (inr sample.denied)]) /\
  fst (snd (ValidateLogs initial (inl sample.cfg) "g" "s" (Some sample.epoch) None
              (fun _ => true)
              [sample.page ["a"; "b"] (Some "t"); inr sample.denied]))
  = Returned (false, Some sample.denied).
Proof.
  pose proof (fetch_error_skips_validator initial (inl sample.cfg) "g" "s"
                sample.epoch None (fun _ => true)
                [sample.page ["a"; "b"] (Some "t"); inr sample.denied]
                ["a"; "b"] sample.denied _ eq_refl) as H.
  split; [reflexivity | exact (proj1 (proj2 H))].
Defined.

(** Property X15.  [ValidateLogs] cannot be called with a nil [since]: it panics before it
    logs or calls anything.  [getLogsSince] itself accepts a nil [since] and
    then sends every request without a start time. *)
Theorem nil_since_panics_in_ValidateLogs_only g ldc c logGroup logStream until
  (validator : list string -> bool) (backend : list (reply GetLogEventsOutput)) :
  ValidateLogs g ldc logGroup logStream None until validator backend
    = (g, (Panicked, [])) /\
  Forall (fun p => StartTime p = None)
    (requests (snd (snd (getLogsSince g (inl c) logGroup logStream None until backend)))).
Proof.
  split; [reflexivity|]. rewrite getLogsSince_loop.
  pose proof (paginate_requests logGroup logStream backend
                (initialLoop logGroup logStream None until)) as H.
  eapply Forall_impl; [|exact H].
  intros p Hp. unfold queryOf in Hp. simpl in Hp. inversion Hp. reflexivity.
Qed.



(** Property X17.  Up to five resource-not-found failures in front of a stream of pages
    change nothing in what [getLogsSince] returns: the outcome is that of
    the pages alone, reached after the retries. *)
Theorem retries_are_transparent g c logGroup logStream since until msg
  (k : nat) (stream : list (reply GetLogEventsOutput)) :
  (k <= 5)%nat ->
  Forall (fun r => isPage r = true) stream ->
  let rnf := ResourceNotFoundException msg in
  let direct := snd (getLogsSince g (inl c) logGroup logStream since until stream) in
  snd (getLogsSince g (inl c) logGroup logStream since until
         (repeat (inr rnf) k ++ stream))
  = (fst direct,
     retryTrace (initialLoop logGroup logStream since until) rnf k ++ snd direct).
Proof.
  intros Hk Hpages rnf direct. subst rnf direct.
  rewrite !getLogsSince_loop.
  unfold initialLoop at 1.
  rewrite (paginate_retries logGroup logStream msg stream k
             (initialParams logGroup logStream since until) 0%Z [])
    by (unfold allowedRetries; lia).
  rewrite (paginate_pages_ignore_attempts logGroup logStream stream Hpages
             (initialParams logGroup logStream since until) None
             (0 + Z.of_nat k)%Z 0%Z []).
  fold (initialLoop logGroup logStream since until).
  destruct (paginate logGroup logStream (initialLoop logGroup logStream since until) stream)
    as [o tr].
  reflexivity.
Qed.

Lemma retries_are_transparent_witness :
  fst (snd (getLogsSince initial (inl sample.cfg) "g" "s" None None
              (repeat (inr sample.notFound) 2
               ++ [sample.page ["ready"] (Some "t"); sample.page [] (Some "t")])))
  = fst (snd (getLogsSince initial (inl sample.cfg) "g" "s" None None
                [sample.page ["ready"] (Some "t"); sample.page [] (Some "t")])).
Proof.
  pose proof (retries_are_transparent initial sample.cfg "g" "s" None None
                "The specified log stream does not exist." 2
                [sample.page ["ready"] (Some "t"); sample.page [] (Some "t")]
                ltac:(lia) ltac:(repeat constructor)) as H.
  cbv zeta in H. exact (f_equal fst H).
Defined.

(** Property X18.  A page that ends with a new forward token moves the cursor: the next
    request carries exactly that token. *)
Theorem next_request_carries_forward_token logGroup logStream
  (st : loopState) (output : GetLogEventsOutput) (t : string)
  (resp : reply GetLogEventsOutput) (rest : list (reply GetLogEventsOutput)) :
  NextForwardToken output = Some t ->
  nextToken st <> Some t ->
  Forall (fun e => Message e <> None) (Events output) ->
  exists o tr p,
    paginate logGroup logStream st (inl output :: resp :: rest)
    = (o, callOf st (inl output) :: EvGetLogEvents p resp :: tr) /\
    NextToken p = Some t /\
    queryOf p = queryOf (params st).
Proof.
  intros Hforward Hnew Hok.
  assert (Hsame : sameToken (nextToken st) (NextForwardToken output) = false).
  { rewrite Hforward. destruct (nextToken st) as [t'|]; [|reflexivity].
    simpl. apply String.eqb_neq. congruence. }
  rewrite (paginate_turn logGroup logStream st output) by assumption.
  destruct (paginate_first_call logGroup logStream (turned st output) resp rest)
    as [o [tr Hrun]].
  exists o, tr, (params (setNextToken (turned st output))).
  rewrite Hrun. split; [reflexivity|]. split.
  - apply request_carries_nextToken. exact Hforward.
  - rewrite queryOf_setNextToken. cbn [turned params]. apply queryOf_setNextToken.
Qed.

Lemma next_request_carries_forward_token_witness :
  exists o tr p,
    paginate "g" "s" (sample.midway (Some "t") 1 ["a"])
      [sample.page ["b"] (Some "u"); sample.page ["c"] (Some "u")]
    = (o, EvGetLogEvents (sample.request (Some "t")) (sample.page ["b"] (Some "u"))
          :: EvGetLogEvents p (sample.page ["c"] (Some "u")) :: tr) /\
    NextToken p = Some "u".
Proof.
  destruct (next_request_carries_forward_token "g" "s"
              (sample.midway (Some "t") 1 ["a"])
              {| Events := [{| Message := Some "b" |}]; NextForwardToken := Some "u" |}
              "u" (sample.page ["c"] (Some "u")) []
              eq_refl ltac:(discriminate)
              ltac:(repeat constructor; discriminate))
    as [o [tr [p [Hrun [Htoken _]]]]].
  exists o, tr, p. split; assumption.
Defined.

(** Property X19.  [IsLogGroupExists] always answers; the answer is true exactly when the
    client is available and the listing for the name prefix is non-empty.
    It sends at most one [DescribeLogGroups] request, with the name as the
    prefix, and none when the client cannot be created. *)
Theorem IsLogGroupExists_true_iff g ldc describe name :
  let query := {| LogGroupNamePrefix := Some name |} in
  let run := snd (IsLogGroupExists g ldc describe name) in
  exists b,
    fst run = Returned b /\
    (b = true <->
     exists g' handles out,
       getCloudWatchLogsClient g ldc = (g', inl handles) /\
       describe query = inl out /\ LogGroups out <> []) /\
    (describeCalls (snd run) = [query] \/
     describeCalls (snd run) = [] /\
     exists g' err, getCloudWatchLogsClient g ldc = (g', inr err)).
Proof.
  intros query run. subst query run. unfold IsLogGroupExists.
  destruct (getCloudWatchLogsClient g ldc) as [g' [handles|err]] eqn:Hclient; simpl.
  - destruct (describe {| LogGroupNamePrefix := Some name |}) as [out|err] eqn:Hd; simpl.
    + exists (0 <? List.length (LogGroups out))%nat.
      split; [reflexivity|]. split; [|left; reflexivity].
      split.
      * intros Hb. exists g', handles, out. repeat split.
        destruct (LogGroups out); [discriminate Hb | discriminate].
      * intros [g1 [h1 [out1 [H1 [H2 Hne]]]]]. inversion H2; subst.
        destruct (LogGroups out1); [congruence | reflexivity].
    + exists false. split; [reflexivity|]. split; [|left; reflexivity].
      split; [discriminate|].
      intros [g1 [h1 [out1 [_ [H2 _]]]]]. discriminate H2.
  - exists false. split; [reflexivity|]. split.
    + split; [discriminate|].
      intros [g1 [h1 [out1 [H1 _]]]]. discriminate H1.
    + right. split; [reflexivity|]. eauto.
Qed.

Lemma IsLogGroupExists_true_iff_witness :
  exists b,
    fst (snd (IsLogGroupExists initial (inl sample.cfg) (sample.listing ["baz"]) "foo"))
    = Returned b /\ b <> true.
Proof.
  destruct (IsLogGroupExists_true_iff initial (inl sample.cfg) (sample.listing ["baz"]) "foo")
    as [b [Hrun [Hiff _]]].
  exists b. split; [exact Hrun|].
  intros Hb. apply Hiff in Hb.
  destruct Hb as [g' [handles [out [_ [Hd Hne]]]]].
  inversion Hd; subst. apply Hne. reflexivity.
Defined.

End LogMoreClaims.

(* ================================================================== *)
(** * Properties of the cleanup functions                               *)
(* ================================================================== *)

Section CleanupClaims.
Import awsservice.

(** Property X20.  With a client at hand, [DeleteLogStream] and [DeleteLogGroup] each make
    their one delete call; they log nothing when it succeeds or reports
    resource-not-found, and log the error otherwise.  Without a client they
    make no call and log the creation error. *)
Theorem cleanup_logs_only_real_errors g ldc streams groups logGroupName logStreamName :
  let si := {| DeleteLogStreamInput.LogGroupName := Some logGroupName;
               DeleteLogStreamInput.LogStreamName := Some logStreamName |} in
  let gi := {| DeleteLogGroupInput.LogGroupName := Some logGroupName |} in
  let ds := snd (DeleteLogStream g ldc streams logGroupName logStreamName) in
  let dg := snd (DeleteLogGroup g ldc groups logGroupName) in
  (forall g' handles,
      getCloudWatchLogsClient g ldc = (g', inl handles) ->
      cleanupCalls ds = [CallDeleteLogStream si (streams si)] /\
      cleanupCalls dg = [CallDeleteLogGroup gi (groups gi)] /\
      (cleanupLogs ds = [] <-> worthLogging (streams si) = false) /\
      (cleanupLogs dg = [] <-> worthLogging (groups gi) = false)) /\
  (forall g' err,
      getCloudWatchLogsClient g ldc = (g', inr err) ->
      ds = [CleanupLog "Error occurred while creating CloudWatch Logs SDK client: %v"
              [ArgError err]] /\
      dg = [CleanupLog "Error occurred while creating CloudWatch Logs SDK client: %v"
              [ArgError err]]).
Proof.
  intros si gi ds dg. subst ds dg. unfold DeleteLogStream, DeleteLogGroup.
  fold si. fold gi. split.
  - intros g' handles Hclient. rewrite Hclient. cbn [snd].
    destruct (streams si) as [[m|m]|]; destruct (groups gi) as [[m'|m']|];
      simpl; repeat split; intros; try reflexivity; discriminate.
  - intros g' err Hclient. rewrite Hclient. split; reflexivity.
Qed.

Lemma cleanup_logs_only_real_errors_witness :
  cleanupLogs (snd (DeleteLogStream initial (inl sample.cfg) sample.streamGone "g" "s")) = [] /\
  snd (DeleteLogGroup initial (inr sample.denied) sample.groupGone "g")
  = [CleanupLog "Error occurred while creating CloudWatch Logs SDK client: %v"
       [ArgError sample.denied]].
Proof.
  pose proof (cleanup_logs_only_real_errors initial (inl sample.cfg)
                sample.streamGone sample.groupGone "g" "s") as Hok.
  pose proof (cleanup_logs_only_real_errors initial (inr sample.denied)
                sample.streamGone sample.groupGone "g" "s") as Hfail.
  cbv zeta in Hok, Hfail. split.
  - destruct (proj1 Hok _ _ eq_refl) as [_ [_ [Hlogs _]]].
    apply Hlogs. reflexivity.
  - exact (proj2 (proj2 Hfail _ _ eq_refl)).
Defined.

(** Property X21.  [DeleteLogGroupAndStream] deletes the stream first and the group second,
    and tries the group whatever became of the stream.  When both are
    already gone nothing is logged.  When the client could not be created
    for the stream, creation is tried again for the group. *)
Theorem DeleteLogGroupAndStream_tries_both g loadFirst loadAgain streams groups
  logGroupName logStreamName :
  let si := {| DeleteLogStreamInput.LogGroupName := Some logGroupName;
               DeleteLogStreamInput.LogStreamName := Some logStreamName |} in
  let gi := {| DeleteLogGroupInput.LogGroupName := Some logGroupName |} in
  let tr := snd (DeleteLogGroupAndStream g loadFirst loadAgain streams groups
                   logGroupName logStreamName) in
  (forall g' handles,
      getCloudWatchLogsClient g loadFirst = (g', inl handles) ->
      cleanupCalls tr = [CallDeleteLogStream si (streams si);
                         CallDeleteLogGroup gi (groups gi)] /\
      (worthLogging (streams si) = false -> worthLogging (groups gi) = false ->
       tr = [CallDeleteLogStream si (streams si); CallDeleteLogGroup gi (groups gi)])) /\
  (forall g' err c,
      getCloudWatchLogsClient g loadFirst = (g', inr err) ->
      loadAgain = inl c ->
      cleanupCalls tr = [CallDeleteLogGroup gi (groups gi)]).
Proof.
  intros si gi tr. subst tr. unfold DeleteLogGroupAndStream. split.
  - intros g' handles Hclient.
    pose proof (getCloudWatchLogsClient_singleton_again g loadFirst g' handles Hclient
                  loadAgain) as Hagain.
    unfold DeleteLogStream, DeleteLogGroup. fold si. fold gi.
    rewrite Hclient. rewrite Hagain. cbn [snd].
    destruct (streams si) as [[m|m]|]; destruct (groups gi) as [[m'|m']|];
      simpl; split; intros; try reflexivity; discriminate.
  - intros g' err c Hclient ->.
    unfold DeleteLogStream, DeleteLogGroup. fold gi.
    rewrite Hclient.
    assert (Hnil : cwl g' = None).
    { unfold getCloudWatchLogsClient in Hclient.
      destruct (cwl g) eqn:Hc; [discriminate|].
      destruct loadFirst; inversion Hclient; subst; reflexivity. }
    unfold getCloudWatchLogsClient. rewrite Hnil. cbn [snd].
    destruct (groups gi) as [[m'|m']|]; reflexivity.
Qed.

Lemma DeleteLogGroupAndStream_tries_both_witness :
  snd (DeleteLogGroupAndStream initial (inl sample.cfg) (inr sample.denied)
         sample.streamGone sample.groupGone "g" "s")
  = [CallDeleteLogStream {| DeleteLogStreamInput.LogGroupName := Some "g";
                            DeleteLogStreamInput.LogStreamName := Some "s" |}
       (Some sample.notFound);
     CallDeleteLogGroup {| DeleteLogGroupInput.LogGroupName := Some "g" |}
       (Some sample.notFound)] /\
  cleanupCalls (snd (DeleteLogGroupAndStream initial (inr sample.denied) (inl sample.cfg)
                       sample.streamRefused sample.groupDeleted "g" "s"))
  = [CallDeleteLogGroup {| DeleteLogGroupInput.LogGroupName := Some "g" |} None].
Proof.
  pose proof (DeleteLogGroupAndStream_tries_both initial (inl sample.cfg)
                (inr sample.denied) sample.streamGone sample.groupGone "g" "s") as Hok.
  pose proof (DeleteLogGroupAndStream_tries_both initial (inr sample.denied)
                (inl sample.cfg) sample.streamRefused sample.groupDeleted "g" "s") as Hre.
  cbv zeta in Hok, Hre. split.
  - apply (proj2 (proj1 Hok _ _ eq_refl)); reflexivity.
  - apply (proj2 Hre _ sample.denied sample.cfg eq_refl eq_refl).
Defined.

End CleanupClaims.
